(** * RagService: the cross-lingual retrieval-augmented generation pipeline

    A shallow embedding of [src/rag/rag.service.ts] (class [RagService]:
    [constructor], [onModuleInit], [translateToEnglish], [ask]) and the
    properties of its specification.

    Conventions of the embedding.
    - A JavaScript string is a [string] holding its UTF-8 bytes.
    - A value decoded from a JSON document is a [json]; a JavaScript value
      that may also be [undefined] is a [jsval] ([None] is [undefined]).
    - The service's collaborators (the configuration service, the Pinecone
      client, the LangChain chain, [fetch], the Nest logger) are outside the
      repository.  They are the fields of an [Env]; each call that can
      answer differently from one call to the next receives the history of
      the calls made so far, so every deterministic behaviour of the outside
      world is an [Env].
    - An [async] method is a computation in the monad [M]: it threads the
      service object and the history of outside calls, and ends by returning
      a value or by throwing.
    - In [RagService] what is thrown is an [Error] object. The module [Any]
      has the same methods for collaborators that may throw, or reject
      with, any value, which is where the [catch] block of [ask] matters. *)

From Stdlib Require Import String Ascii List Bool Arith Lia QArith.
From Stdlib Require Import DecimalString DecimalNat.
Import ListNotations.
Local Close Scope Q_scope.
Local Open Scope nat_scope.
Local Open Scope list_scope.
Local Open Scope string_scope.

Set Implicit Arguments.
#[local] Set Warnings "-register-all".

(* ===================================================================== *)
(** * Strings *)
(* ===================================================================== *)

Module Str.

(** The double quote, line feed and the other characters the source writes
    with an escape. *)
Definition dq : string := String (ascii_of_nat 34) EmptyString.
Definition nl : string := String (ascii_of_nat 10) EmptyString.

(** A template literal that spans several lines, one entry per line. *)
Definition lines (ls : list string) : string := String.concat nl ls.

Definition is_empty (s : string) : bool :=
  match s with EmptyString => true | String _ _ => false end.

Fixpoint rev_append (s acc : string) : string :=
  match s with
  | EmptyString => acc
  | String c s' => rev_append s' (String c acc)
  end.

Definition rev (s : string) : string := rev_append s EmptyString.

(** ECMAScript WhiteSpace and LineTerminator code points, as the UTF-8
    byte sequences that encode them:
    U+0009..U+000D, U+0020 (one byte); U+00A0 (two bytes);
    U+1680, U+2000..U+200A, U+2028, U+2029, U+202F, U+205F, U+3000,
    U+FEFF (three bytes). *)
Definition ws1 (a : nat) : bool :=
  (((9 <=? a) && (a <=? 13)) || (a =? 32))%nat.

Definition ws2 (a b : nat) : bool := ((a =? 194) && (b =? 160))%nat.

Definition ws3 (a b c : nat) : bool :=
  (((a =? 225) && (b =? 154) && (c =? 128))
   || ((a =? 226) && (b =? 128)
       && (((128 <=? c) && (c <=? 138)) || (c =? 168) || (c =? 169) || (c =? 175)))
   || ((a =? 226) && (b =? 129) && (c =? 159))
   || ((a =? 227) && (b =? 128) && (c =? 128))
   || ((a =? 239) && (b =? 187) && (c =? 191)))%nat.

(** [strip fwd s] removes the white space [s] starts with; [fwd] tells
    whether the bytes of [s] are in reading order or reversed. *)
Fixpoint strip (fwd : bool) (s : string) : string :=
  match s with
  | EmptyString => s
  | String c1 s1 =>
      if ws1 (nat_of_ascii c1) then strip fwd s1
      else
        match s1 with
        | EmptyString => s
        | String c2 s2 =>
            if (if fwd then ws2 (nat_of_ascii c1) (nat_of_ascii c2)
                else ws2 (nat_of_ascii c2) (nat_of_ascii c1))
            then strip fwd s2
            else
              match s2 with
              | EmptyString => s
              | String c3 s3 =>
                  if (if fwd
                      then ws3 (nat_of_ascii c1) (nat_of_ascii c2) (nat_of_ascii c3)
                      else ws3 (nat_of_ascii c3) (nat_of_ascii c2) (nat_of_ascii c1))
                  then strip fwd s3
                  else s
              end
        end
  end.

(** [String.prototype.trim]. *)
Definition trim (s : string) : string :=
  rev (strip false (rev (strip true s))).

(** [String.prototype.length]: the number of UTF-16 code units of the text
    the bytes encode (a continuation byte adds nothing, the first byte of
    a four-byte sequence stands for a surrogate pair). *)
Fixpoint utf16_length (s : string) : nat :=
  match s with
  | EmptyString => 0
  | String c s' =>
      let b := nat_of_ascii c in
      ((if b <? 128 then 1 else if b <? 192 then 0 else if b <? 240 then 1 else 2)
       + utf16_length s')%nat
  end.

(** Decimal rendering of a natural number. *)
Definition of_nat (n : nat) : string := NilEmpty.string_of_uint (Nat.to_uint n).

Definition hex_digit (n : nat) : string :=
  String (ascii_of_nat (if n <? 10 then 48 + n else 87 + n)%nat) EmptyString.

End Str.

(* ===================================================================== *)
(** * JavaScript values decoded from JSON *)
(* ===================================================================== *)

(** A number is kept as the text [Number::toString] gives for it, which is
    all the service ever does with one (it compares [length] with [0] and
    prints); [+0] and [-0] both print as [0]. An object is the list of its
    own properties in enumeration order; [JSON.parse] makes no object with
    a key twice, and a lookup stops at the first. *)
Inductive json : Type :=
| JNull
| JBool (b : bool)
| JNum (repr : string)
| JStr (s : string)
| JArr (elems : list json)
| JObj (props : list (string * json)).

(** A value that may be [undefined], which is [None]. *)
Definition jsval : Type := option json.

(* ===================================================================== *)
(** * Exceptions *)
(* ===================================================================== *)

(** An [Error] object ([Error], [TypeError], [SyntaxError], ...); the
    service reads nothing of it but [message]. It is what the language
    itself throws, and what the methods of [RagService] below take their
    collaborators to throw; the module [Any], further down, has the same
    methods for collaborators that throw any value. *)
Record Error : Type := mkError { message : string }.

(** How the evaluation of an expression ends. *)
Inductive outcome (A : Type) : Type :=
| Returned (a : A)
| Thrown (e : Error).
Arguments Returned {A} a.
Arguments Thrown {A} e.

Definition bindO {A B : Type} (c : outcome A) (k : A -> outcome B) : outcome B :=
  match c with
  | Returned a => k a
  | Thrown e => Thrown e
  end.

Notation "x <~ c ;; k" := (bindO c (fun x => k))
  (at level 61, c at next level, right associativity).

Module Js.

Import Str.

(** ToBoolean. *)
Definition truthy (v : json) : bool :=
  match v with
  | JNull => false
  | JBool b => b
  | JNum r => negb (String.eqb r "0" || String.eqb r "NaN")
  | JStr s => negb (is_empty s)
  | JArr _ | JObj _ => true
  end.

Definition truthy_val (v : jsval) : bool :=
  match v with None => false | Some j => truthy j end.

(** Own property of an object, by key. *)
Fixpoint lookup (k : string) (props : list (string * json)) : jsval :=
  match props with
  | [] => None
  | (k', v) :: rest => if String.eqb k k' then Some v else lookup k rest
  end.

(** QuoteJSONString: the escapes of [JSON.stringify]. *)
Definition quote_char (c : ascii) : string :=
  let n := nat_of_ascii c in
  if (n =? 34)%nat then "\" ++ dq
  else if (n =? 92)%nat then "\\"
  else if (n =? 8)%nat then "\b"
  else if (n =? 12)%nat then "\f"
  else if (n =? 10)%nat then "\n"
  else if (n =? 13)%nat then "\r"
  else if (n =? 9)%nat then "\t"
  else if (n <? 32)%nat then "\u00" ++ hex_digit (n / 16) ++ hex_digit (n mod 16)
  else String c EmptyString.

Fixpoint quote_body (s : string) : string :=
  match s with
  | EmptyString => EmptyString
  | String c s' => quote_char c ++ quote_body s'
  end.

Definition quote (s : string) : string := dq ++ quote_body s ++ dq.

(** [JSON.stringify(v)] without indentation, for a value decoded from
    JSON (no functions, no cycles, no [toJSON]). *)
Fixpoint stringify (v : json) : string :=
  match v with
  | JNull => "null"
  | JBool true => "true"
  | JBool false => "false"
  | JNum r =>
      if String.eqb r "Infinity" || String.eqb r "-Infinity" || String.eqb r "NaN"
      then "null" else r
  | JStr s => quote s
  | JArr l => "[" ++ String.concat "," (map stringify l) ++ "]"
  | JObj ps =>
      "{" ++ String.concat ","
               (map (fun kv : string * json =>
                       (quote (fst kv) ++ ":" ++ stringify (snd kv))%string) ps)
      ++ "}"
  end.

(** [JSON.stringify] of a value that may be [undefined]: the result is
    then [undefined] too. *)
Definition stringify_val (v : jsval) : jsval :=
  match v with
  | None => None
  | Some j => Some (JStr (stringify j))
  end.

(** ToString. An array prints its elements, [null] as nothing, with commas
    between them. An object prints as [[object Object]], unless it has a
    property [toString] of its own: decoded from JSON that property is no
    function, the conversion finds no method that gives a primitive, and
    a [TypeError] is thrown. *)
Fixpoint to_string (v : json) : outcome string :=
  match v with
  | JNull => Returned "null"
  | JBool true => Returned "true"
  | JBool false => Returned "false"
  | JNum r => Returned r
  | JStr s => Returned s
  | JArr l =>
      texts <~ (fix each (l : list json) : outcome (list string) :=
                  match l with
                  | [] => Returned []
                  | x :: rest =>
                      t <~ match x with
                           | JNull => Returned EmptyString
                           | _ => to_string x
                           end ;;
                      ts <~ each rest ;;
                      Returned (t :: ts)
                  end) l ;;
      Returned (String.concat "," texts)
  | JObj ps =>
      match lookup "toString" ps with
      | None => Returned "[object Object]"
      | Some _ => Thrown (mkError "Cannot convert object to primitive value")
      end
  end.

(** The text an element contributes to [Array.prototype.join]. *)
Definition join_element (v : jsval) : outcome string :=
  match v with
  | None | Some JNull => Returned EmptyString
  | Some j => to_string j
  end.

(** [Array.prototype.join(sep)], as the language defines it: [R] starts
    empty; for each index [k], the separator is appended when [k > 0],
    then the element's text; an element that cannot be printed ends it
    with the throw. *)
Fixpoint join_from (sep : string) (k : nat) (R : string) (l : list jsval)
    : outcome string :=
  match l with
  | [] => Returned R
  | e :: rest =>
      let R1 := if (k =? 0)%nat then R else R ++ sep in
      next <~ join_element e ;;
      join_from sep (S k) (R1 ++ next) rest
  end.

Definition join (sep : string) (l : list jsval) : outcome string :=
  join_from sep 0 EmptyString l.

(** The property names the service reads. None of them is a method or an
    inherited property of a primitive, except [length] of arrays and
    strings. *)
Inductive PropertyKey : Type :=
| K_result | K_hits | K_fields | K_combined_context | K_length.

Definition key_name (k : PropertyKey) : string :=
  match k with
  | K_result => "result"
  | K_hits => "hits"
  | K_fields => "fields"
  | K_combined_context => "combined_context"
  | K_length => "length"
  end.

(** [v.k] for a [v] that is not [null]. *)
Definition member (v : json) (k : PropertyKey) : jsval :=
  match v with
  | JObj ps => lookup (key_name k) ps
  | JArr l =>
      match k with K_length => Some (JNum (of_nat (List.length l))) | _ => None end
  | JStr s =>
      match k with K_length => Some (JNum (of_nat (utf16_length s))) | _ => None end
  | JNull | JBool _ | JNum _ => None
  end.

(** The optional chain [a?.k]. *)
Definition opt_member (a : jsval) (k : PropertyKey) : jsval :=
  match a with
  | None | Some JNull => None
  | Some v => member v k
  end.

(** [a || b] for a [b] that is not [undefined]. *)
Definition or_else (a : jsval) (b : json) : json :=
  match a with
  | Some v => if truthy v then v else b
  | None => b
  end.

(** [v === 0]. *)
Definition is_zero (v : jsval) : bool :=
  match v with
  | Some (JNum r) => String.eqb r "0"
  | _ => false
  end.

End Js.

(* ===================================================================== *)
(** * Reading properties *)
(* ===================================================================== *)

(** [v.k], which throws a [TypeError] when [v] is [null]. *)
Definition get (v : json) (k : Js.PropertyKey) : outcome jsval :=
  match v with
  | JNull =>
      Thrown (mkError ("Cannot read properties of null (reading '"
                       ++ Js.key_name k ++ "')"))
  | _ => Returned (Js.member v k)
  end.

(** [f] over the elements from left to right; the first throw ends it. *)
Fixpoint mapO {A B : Type} (f : A -> outcome B) (l : list A) : outcome (list B) :=
  match l with
  | [] => Returned []
  | x :: rest =>
      y <~ f x ;;
      ys <~ mapO f rest ;;
      Returned (y :: ys)
  end.

(** [recv.map(cb)]: only an array has a [map] method. *)
Definition Array_map (recv : json) (recv_name : string)
    (cb : json -> outcome jsval) : outcome (list jsval) :=
  match recv with
  | JArr l => mapO cb l
  | _ => Thrown (mkError (recv_name ++ ".map is not a function"))
  end.

(* ===================================================================== *)
(** * The collaborators *)
(* ===================================================================== *)

(** [new ChatGoogleGenerativeAI({ model, temperature, apiKey })]. *)
Record ChatGoogleGenerativeAI : Type := {
  model : string;
  temperature : Q;
  apiKey : string
}.

(** [new Pinecone({ apiKey })]. *)
Record Pinecone : Type := { pinecone_apiKey : string }.

(** [new ChatGoogleGenerativeAI(fields)] and [new Pinecone(options)]: the
    two libraries refuse a key that is the empty string, and throw. *)
Definition new_ChatGoogleGenerativeAI (fields : ChatGoogleGenerativeAI)
    : outcome ChatGoogleGenerativeAI :=
  if Str.is_empty (apiKey fields)
  then Thrown (mkError "Please set an API key for Google GenerativeAI")
  else Returned fields.

Definition new_Pinecone (options : Pinecone) : outcome Pinecone :=
  if Str.is_empty (pinecone_apiKey options)
  then Thrown (mkError "The client configuration must have required property: apiKey.")
  else Returned options.

(** What [describeIndex] resolves to; the service reads [host]. *)
Record IndexModel : Type := { host : string }.

(** [prompt.pipe(llm).pipe(new StringOutputParser())] invoked on an input:
    the model object, the template and the values of its slots. *)
Record ChainCall : Type := {
  chain_llm : ChatGoogleGenerativeAI;
  chain_template : string;
  chain_input : list (string * string)
}.

(** The second argument of [fetch]. *)
Record RequestInit : Type := {
  method : string;
  headers : list (string * string);
  body : string
}.

(** What [fetch] resolves to; [json_body] is what [response.json()] does. *)
Record Response : Type := {
  ok : bool;
  statusText : string;
  json_body : outcome json
}.

(** A call the service makes to the outside. [LoggerError] is
    [logger.error] given an [Error] object, [LoggerErrorValue] the same
    given another value that was thrown. *)
Inductive Event : Type :=
| DescribeIndex (client : Pinecone) (name : string)
| ChainInvoke (call : ChainCall)
| Fetch (url : string) (init : RequestInit)
| LoggerLog (msg : string)
| LoggerError (msg : string) (e : Error)
| LoggerErrorValue (msg : string) (v : jsval).

(** The outside world. [config k] is the configured value of [k], if any;
    the other fields answer a call given the calls made before it. *)
Record Env : Type := {
  config : string -> option string;
  describeIndex : list Event -> Pinecone -> string -> outcome IndexModel;
  invoke : list Event -> ChainCall -> outcome string;
  fetch : list Event -> string -> RequestInit -> outcome Response
}.

(** [configService.getOrThrow(key)]. *)
Definition getOrThrow (env : Env) (key : string) : outcome string :=
  match config env key with
  | Some v => Returned v
  | None =>
      Thrown (mkError ("Configuration key " ++ Str.dq ++ key ++ Str.dq
                       ++ " does not exist"))
  end.

(* ===================================================================== *)
(** * The service object and the monad of its methods *)
(* ===================================================================== *)

(** The fields of [RagService]. *)
Record RagService : Type := {
  llm : ChatGoogleGenerativeAI;
  pinecone : Pinecone;
  indexName : string;
  indexHost : string
}.

Definition with_indexHost (h : string) (s : RagService) : RagService :=
  {| llm := llm s; pinecone := pinecone s; indexName := indexName s;
     indexHost := h |}.

(** The service object and the calls made to the outside so far, oldest
    first. *)
Record State : Type := {
  this : RagService;
  history : list Event
}.

Definition M (A : Type) : Type := State -> outcome A * State.

Definition ret {A : Type} (a : A) : M A := fun st => (Returned a, st).

Definition throw {A : Type} (e : Error) : M A := fun st => (Thrown e, st).

Definition bind {A B : Type} (c : M A) (k : A -> M B) : M B :=
  fun st =>
    match c st with
    | (Returned a, st') => k a st'
    | (Thrown e, st') => (Thrown e, st')
    end.

Notation "x <- c ;; k" := (bind c (fun x => k))
  (at level 61, c at next level, right associativity).
Notation "c ;; k" := (bind c (fun _ => k))
  (at level 61, right associativity).

(** [try { body } catch (error) { handler }]: what the body did before it
    threw stays done. *)
Definition try_catch {A : Type} (body : M A) (handler : Error -> M A) : M A :=
  fun st =>
    match body st with
    | (Returned a, st') => (Returned a, st')
    | (Thrown e, st') => handler e st'
    end.

Definition lift {A : Type} (c : outcome A) : M A := fun st => (c, st).

Definition self : M RagService := fun st => (Returned (this st), st).

Definition set_indexHost (h : string) : M unit :=
  fun st =>
    (Returned tt, {| this := with_indexHost h (this st); history := history st |}).

(** The state once one more call has been made. *)
Definition after (ev : Event) (st : State) : State :=
  {| this := this st; history := (history st ++ [ev])%list |}.

(** A call to the outside: it is answered from the history, then added to it. *)
Definition call {A : Type} (ev : Event) (answer : list Event -> outcome A) : M A :=
  fun st => (answer (history st), after ev st).

(* ===================================================================== *)
(** * RagService *)
(* ===================================================================== *)

(** The calls of the service to its collaborators. *)
Section Calls.

Variable env : Env.

Definition pinecone_describeIndex (name : string) : M IndexModel :=
  s <- self ;;
  call (DescribeIndex (pinecone s) name)
       (fun h => describeIndex env h (pinecone s) name).

(** [prompt.pipe(this.llm).pipe(new StringOutputParser()).invoke(input)]
    for the prompt made from [template]. *)
Definition chain_invoke (template : string) (input : list (string * string))
    : M string :=
  s <- self ;;
  let c := {| chain_llm := llm s; chain_template := template;
              chain_input := input |} in
  call (ChainInvoke c) (fun h => invoke env h c).

Definition do_fetch (url : string) (init : RequestInit) : M Response :=
  call (Fetch url init) (fun h => fetch env h url init).

Definition logger_log (msg : string) : M unit :=
  call (LoggerLog msg) (fun _ => Returned tt).

Definition logger_error (msg : string) (e : Error) : M unit :=
  call (LoggerError msg e) (fun _ => Returned tt).

End Calls.

Module RagService.

Import Str.

(** The constants of the source. *)
Definition NAMESPACE : string := "lurky-products".
Definition TOP_K : string := "4".
Definition SEPARATOR : string := nl ++ nl ++ "---" ++ nl ++ nl.
Definition NO_INFORMATION : string :=
  "No relevant product information found. (未找到相关产品信息)".
Definition SYSTEM_ERROR : string := "系统繁忙，请稍后再试 (System Error).".

(** The template of [translateToEnglish]. *)
Definition template : string :=
  lines [
    "";
    "    You are a professional translator. ";
    "    Translate the following text to **English**. ";
    "    If the text is already in English, return it exactly as is.";
    "    Do not add any explanations, notes, or extra punctuation. Just the translated text.";
    "";
    "    Text: {text}";
    "    "
  ].

(** The template of the answer. *)
Definition finalTemplate : string :=
  lines [
    "";
    "      You are " ++ dq ++ "Lurky Bot" ++ dq ++ ", the official AI assistant for the Lurky brand.";
    "";
    "      Task:";
    "      Answer the question based strictly on the provided Context.";
    "      ";
    "      CRITICAL INSTRUCTION:";
    "      The user asked the question in this language: " ++ dq ++ "{original_question}" ++ dq ++ ".";
    "      **You MUST answer in the same language as the " ++ dq ++ "{original_question}" ++ dq ++ ".**";
    "      (e.g., if the user asked in Chinese, answer in Chinese. If French, answer in French).";
    "";
    "      Context Information:";
    "      {context}";
    "";
    "      English Translated Question (for your understanding):";
    "      {english_question} ";
    "";
    "      Original User Question (Target Language):";
    "      {original_question}";
    "      "
  ].

(** The object [ask] resolves to: its properties in the order written. *)
Definition AskResult : Type := list (string * string).

(** [r.k], [None] when [r] has no property [k]. *)
Fixpoint prop (k : string) (r : AskResult) : option string :=
  match r with
  | [] => None
  | (k', v) :: rest => if String.eqb k k' then Some v else prop k rest
  end.

(** The body of the search request, before [JSON.stringify]. *)
Definition search_body (englishQuestion : string) : json :=
  JObj [
    ("query", JObj [
       ("inputs", JObj [("text", JStr englishQuestion)]);
       ("top_k", JNum TOP_K)
     ]);
    ("fields", JArr [JStr "id"; JStr "text"])
  ].

Definition search_url (indexHost : string) : string :=
  "https://" ++ indexHost ++ "/records/namespaces/" ++ NAMESPACE ++ "/search".

(** The options of the search request. *)
Definition search_init (key englishQuestion : string) : RequestInit :=
  {| method := "POST";
     headers := [("Api-Key", key);
                 ("Content-Type", "application/json");
                 ("X-Pinecone-API-Version", "2024-10")];
     body := Js.stringify (search_body englishQuestion) |}.

(** [searchResult.result?.hits || []]. *)
Definition hits_of (searchResult : json) : outcome json :=
  result <~ get searchResult Js.K_result ;;
  Returned (Js.or_else (Js.opt_member result Js.K_hits) (JArr [])).

(** The callback of [hits.map]:
    [hit.fields?.combined_context || JSON.stringify(hit.fields)]. *)
Definition hit_text (hit : json) : outcome jsval :=
  fields <~ get hit Js.K_fields ;;
  let text := Js.opt_member fields Js.K_combined_context in
  if Js.truthy_val text then Returned text
  else
    fields' <~ get hit Js.K_fields ;;
    Returned (Js.stringify_val fields').

(** [hits.map(...).join('\n\n---\n\n')]. *)
Definition assemble (hits : json) : outcome string :=
  texts <~ Array_map hits "hits" hit_text ;;
  Js.join SEPARATOR texts.

Section Methods.

Variable env : Env.

(** [constructor(configService)]. *)
Definition constructor : outcome RagService :=
  google <~ getOrThrow env "GOOGLE_API_KEY" ;;
  llm0 <~ new_ChatGoogleGenerativeAI
            {| model := "gemini-2.5-flash"; temperature := 3 # 10;
               apiKey := google |} ;;
  key <~ getOrThrow env "PINECONE_API_KEY" ;;
  pinecone0 <~ new_Pinecone {| pinecone_apiKey := key |} ;;
  name <~ getOrThrow env "PINECONE_INDEX" ;;
  Returned {| llm := llm0; pinecone := pinecone0; indexName := name;
              indexHost := EmptyString |}.

(** [onModuleInit()]. *)
Definition onModuleInit : M unit :=
  try_catch
    (s <- self ;;
     indexDescription <- pinecone_describeIndex env (indexName s) ;;
     set_indexHost (host indexDescription) ;;
     s <- self ;;
     logger_log ("Pinecone Index Host found: " ++ indexHost s))
    (fun error =>
       logger_error "Failed to get Pinecone index host" error).

(** [translateToEnglish(text)]. *)
Definition translateToEnglish (text : string) : M string :=
  res <- chain_invoke env template [("text", text)] ;;
  ret (trim res).

(** [ask], lines 73-76: the index host is looked up when it is unset. *)
Definition resolveIndexHost : M unit :=
  s <- self ;;
  if is_empty (indexHost s) then
    desc <- pinecone_describeIndex env (indexName s) ;;
    set_indexHost (host desc)
  else ret tt.

(** [ask], lines 73-84 (step 1): the host, the translation of the
    question and the two log lines. *)
Definition prepare (originalQuestion : string) : M string :=
  resolveIndexHost ;;
  englishQuestion <- translateToEnglish originalQuestion ;;
  logger_log ("原始问题: " ++ dq ++ originalQuestion ++ dq) ;;
  logger_log ("翻译后用于检索的问题: " ++ dq ++ englishQuestion ++ dq) ;;
  ret englishQuestion.

(** [ask], lines 89-113 (step 2): the search request and the hits of
    its response. *)
Definition search (englishQuestion : string) : M json :=
  s <- self ;;
  let searchUrl := search_url (indexHost s) in
  key <- lift (getOrThrow env "PINECONE_API_KEY") ;;
  response <- do_fetch env searchUrl (search_init key englishQuestion) ;;
  (if negb (ok response) then
     throw (mkError ("Pinecone Search Error: " ++ statusText response))
   else ret tt) ;;
  searchResult <- lift (json_body response) ;;
  lift (hits_of searchResult).

(** [ask], lines 116-173: the answer without hits, and with them
    (step 3). *)
Definition respond (originalQuestion englishQuestion : string) (hits : json)
    : M AskResult :=
  len <- lift (get hits Js.K_length) ;;
  if Js.is_zero len then
    ret [("question", originalQuestion);
         ("englishQuestion", englishQuestion);
         ("answer", NO_INFORMATION)]
  else
    context <- lift (assemble hits) ;;
    answer <- chain_invoke env finalTemplate
                [("context", context);
                 ("english_question", englishQuestion);
                 ("original_question", originalQuestion)] ;;
    ret [("originalQuestion", originalQuestion);
         ("englishQuestion", englishQuestion);
         ("answer", answer)].

(** The [try] block of [ask]. *)
Definition ask_try (originalQuestion : string) : M AskResult :=
  englishQuestion <- prepare originalQuestion ;;
  hits <- search englishQuestion ;;
  respond originalQuestion englishQuestion hits.

(** The [catch] block of [ask]. *)
Definition ask_catch (originalQuestion : string) (error : Error)
    : M AskResult :=
  logger_error "RAG Process Error:" error ;;
  ret [("question", originalQuestion);
       ("answer", SYSTEM_ERROR);
       ("error", message error)].

(** [ask(originalQuestion)]. *)
Definition ask (originalQuestion : string) : M AskResult :=
  try_catch (ask_try originalQuestion) (ask_catch originalQuestion).

End Methods.

End RagService.

Import RagService.

(* ===================================================================== *)
(** * The context, fragment by fragment *)
(* ===================================================================== *)

Module Context.

(** The text a hit that is not [null] adds to the context: its
    [combined_context] when that is truthy, printed as [join] prints it,
    else the JSON text of its [fields], and nothing when it has no
    [fields]. Printing throws for a text that cannot be printed. *)
Definition fragment_text (hit : json) : outcome string :=
  match Js.member hit Js.K_fields with
  | None => Returned EmptyString
  | Some fields =>
      let text := Js.opt_member (Some fields) Js.K_combined_context in
      if Js.truthy_val text then Js.join_element text
      else Returned (Js.stringify fields)
  end.

(** The specification's reading, for comparison: a fragment that has a
    text contributes it, whatever it is, and only a fragment without the
    field contributes the JSON text of its fields. *)
Definition fragment_text_by_key (hit : json) : outcome string :=
  match Js.member hit Js.K_fields with
  | None => Returned EmptyString
  | Some fields =>
      match Js.opt_member (Some fields) Js.K_combined_context with
      | Some text => Js.join_element (Some text)
      | None => Returned (Js.stringify fields)
      end
  end.

Definition context_by_key (hits : list json) : outcome string :=
  texts <~ mapO fragment_text_by_key hits ;;
  Returned (String.concat SEPARATOR texts).

End Context.

(** The value an evaluation returned, if it returned. *)
Definition returned {A : Type} (o : outcome A) : option A :=
  match o with
  | Returned a => Some a
  | Thrown _ => None
  end.

(** The original question as a result carries it, under either of the two
    keys the source uses for it. *)
Definition question_of (r : AskResult) : option string :=
  match prop "originalQuestion" r with
  | Some q => Some q
  | None => prop "question" r
  end.

(** The translation request. *)
Definition translation_call (s : RagService) (text : string) : ChainCall :=
  {| chain_llm := llm s; chain_template := template;
     chain_input := [("text", text)] |}.

(** The answer request. *)
Definition answer_call (s : RagService) (context englishQuestion
    originalQuestion : string) : ChainCall :=
  {| chain_llm := llm s; chain_template := finalTemplate;
     chain_input := [("context", context);
                     ("english_question", englishQuestion);
                     ("original_question", originalQuestion)] |}.

(** Whether a call is a lookup of the index host. *)
Definition is_describeIndex (ev : Event) : bool :=
  match ev with DescribeIndex _ _ => true | _ => false end.

(** The search requests among some calls. *)
Fixpoint fetches (evs : list Event) : list (string * RequestInit) :=
  match evs with
  | [] => []
  | Fetch url init :: rest => (url, init) :: fetches rest
  | _ :: rest => fetches rest
  end.

(** The chain invocations among some calls. *)
Fixpoint invocations (evs : list Event) : list ChainCall :=
  match evs with
  | [] => []
  | ChainInvoke c :: rest => c :: invocations rest
  | _ :: rest => invocations rest
  end.

(* ===================================================================== *)
(** * Sample worlds *)
(* ===================================================================== *)

Module Sample.

Definition service : RagService :=
  {| llm := {| model := "gemini-2.5-flash"; temperature := 3 # 10;
               apiKey := "google-key" |};
     pinecone := {| pinecone_apiKey := "pinecone-key" |};
     indexName := "lurky";
     indexHost := EmptyString |}.

Definition settings (key : string) : option string :=
  if String.eqb key "GOOGLE_API_KEY" then Some "google-key"
  else if String.eqb key "PINECONE_API_KEY" then Some "pinecone-key"
  else if String.eqb key "PINECONE_INDEX" then Some "lurky"
  else None.

(** A world whose index lookup, translation and search answer as given;
    the answer chain always answers. *)
Definition world (lookup : list Event -> outcome IndexModel)
    (translation : outcome string) (response : outcome Response) : Env :=
  {| config := settings;
     describeIndex := fun h _ _ => lookup h;
     invoke := fun _ c =>
       if String.eqb (chain_template c) template then translation
       else Returned "有红色和蓝色两种。";
     fetch := fun _ _ _ => response |}.

Definition found (_ : list Event) : outcome IndexModel :=
  Returned {| host := "lurky-1a2b.svc.pinecone.io" |}.

(** The lookup fails when it is the first call made, and works later. *)
Definition found_later (h : list Event) : outcome IndexModel :=
  match h with
  | [] => Thrown (mkError "getaddrinfo ENOTFOUND api.pinecone.io")
  | _ :: _ => found h
  end.

Definition question : string := "Lurky连帽衫有什么颜色？".
Definition english : string := "What colors does the Lurky hoodie come in?".

Definition respond_with (searchResult : json) : outcome Response :=
  Returned {| ok := true; statusText := "OK";
              json_body := Returned searchResult |}.

Definition unavailable : outcome Response :=
  Returned {| ok := false; statusText := "Service Unavailable";
              json_body := Returned (JObj []) |}.

Definition hit (fields : list (string * json)) : json :=
  JObj [("_id", JStr "rec1"); ("_score", JNum "0.87"); ("fields", JObj fields)].

(** Just constructed, and with the host already resolved. *)
Definition fresh : State := {| this := service; history := [] |}.

Definition resolved : State :=
  {| this := with_indexHost "lurky-1a2b.svc.pinecone.io" service;
     history := [] |}.

(** The index cannot be reached at startup; later it can, and finds
    nothing. *)
Definition flaky : Env :=
  world found_later (Returned english) (respond_with (JObj [])).

(** The state [onModuleInit] leaves in [flaky]. *)
Definition failed_start : State :=
  {| this := service;
     history :=
       [DescribeIndex (pinecone service) "lurky";
        LoggerError "Failed to get Pinecone index host"
          (mkError "getaddrinfo ENOTFOUND api.pinecone.io")] |}.

(** The generation service is down. *)
Definition down : Env :=
  world found (Thrown (mkError "503 Service Unavailable")) (respond_with (JObj [])).

(** The index finds three records: one with a text, one whose text is
    empty, one without the field. *)
Definition three_hits : list json :=
  [hit [("combined_context", JStr "Red hoodie, sizes S to XL")];
   hit [("combined_context", JStr EmptyString)];
   hit [("text", JStr "Blue hoodie")]].

(** Two records, the second with an empty text. *)
Definition two_hits : list json :=
  [hit [("combined_context", JStr "Red hoodie")];
   hit [("combined_context", JStr EmptyString)]].

End Sample.

(* ===================================================================== *)
(** * The controller and the life of the process *)
(* ===================================================================== *)

Module RagController.

(** [ask(question)] of [rag.controller.ts], the handler of [POST rag/ask]:
    it hands the [question] of the request body to the service and
    returns what the service returns. *)
Definition ask (env : Env) (question : string) : M AskResult :=
  RagService.ask env question.

End RagController.

(** The states a process gets to from [st] by handling requests, one after
    the other. *)
Inductive serves (env : Env) (st : State) : State -> Prop :=
| serves_start : serves env st st
| serves_request (st1 : State) (question : string) :
    serves env st st1 ->
    serves env st (snd (RagController.ask env question st1)).

(* ===================================================================== *)
(** * Reading a history *)
(* ===================================================================== *)

(** The calls that leave the process. *)
Inductive CallKind : Type := Lookup | Translation | Search | Answer.

(** The kind of a call; a log line is none. A chain invocation is told by
    its template. *)
Definition call_kind (ev : Event) : option CallKind :=
  match ev with
  | DescribeIndex _ _ => Some Lookup
  | ChainInvoke c =>
      if String.eqb (chain_template c) template then Some Translation
      else Some Answer
  | Fetch _ _ => Some Search
  | LoggerLog _ | LoggerError _ _ | LoggerErrorValue _ _ => None
  end.

Fixpoint calls (evs : list Event) : list CallKind :=
  match evs with
  | [] => []
  | ev :: rest =>
      match call_kind ev with
      | Some k => k :: calls rest
      | None => calls rest
      end
  end.

(** The errors logged among some calls. *)
Fixpoint logged_errors (evs : list Event) : list (string * Error) :=
  match evs with
  | [] => []
  | LoggerError msg e :: rest => (msg, e) :: logged_errors rest
  | _ :: rest => logged_errors rest
  end.

(* ===================================================================== *)
(** * White space at the ends of a string *)
(* ===================================================================== *)

(** Whether [s] starts with a white space character; [fwd] as for
    [Str.strip]. *)
Definition starts_ws (fwd : bool) (s : string) : bool :=
  match s with
  | EmptyString => false
  | String c1 s1 =>
      Str.ws1 (nat_of_ascii c1)
      || match s1 with
         | EmptyString => false
         | String c2 s2 =>
             (if fwd then Str.ws2 (nat_of_ascii c1) (nat_of_ascii c2)
              else Str.ws2 (nat_of_ascii c2) (nat_of_ascii c1))
             || match s2 with
                | EmptyString => false
                | String c3 _ =>
                    if fwd
                    then Str.ws3 (nat_of_ascii c1) (nat_of_ascii c2) (nat_of_ascii c3)
                    else Str.ws3 (nat_of_ascii c3) (nat_of_ascii c2) (nat_of_ascii c1)
                end
         end
  end.

(** Whether [s] ends with a white space character. *)
Definition ends_ws (s : string) : bool := starts_ws false (Str.rev s).

(** Strings made of white space characters only; [fwd] as for
    [Str.strip]. *)
Inductive blank (fwd : bool) : string -> Prop :=
| blank_nil : blank fwd EmptyString
| blank_1 (c1 : ascii) (s : string) :
    Str.ws1 (nat_of_ascii c1) = true ->
    blank fwd s -> blank fwd (String c1 s)
| blank_2 (c1 c2 : ascii) (s : string) :
    (if fwd then Str.ws2 (nat_of_ascii c1) (nat_of_ascii c2)
     else Str.ws2 (nat_of_ascii c2) (nat_of_ascii c1)) = true ->
    blank fwd s -> blank fwd (String c1 (String c2 s))
| blank_3 (c1 c2 c3 : ascii) (s : string) :
    (if fwd
     then Str.ws3 (nat_of_ascii c1) (nat_of_ascii c2) (nat_of_ascii c3)
     else Str.ws3 (nat_of_ascii c3) (nat_of_ascii c2) (nat_of_ascii c1)) = true ->
    blank fwd s -> blank fwd (String c1 (String c2 (String c3 s))).

(** White space, read in reading order. *)
Definition white (s : string) : Prop := blank true s.

(* ===================================================================== *)
(** * Reading a request body *)
(* ===================================================================== *)

Module Body.

Definition hex_val (c : ascii) : nat :=
  let n := nat_of_ascii c in
  (if n <? 58 then n - 48 else n - 87)%nat.

(** The character of a one-letter escape. *)
Definition escaped (n : nat) : option ascii :=
  (if n =? 34 then Some (ascii_of_nat 34)
   else if n =? 92 then Some (ascii_of_nat 92)
   else if n =? 98 then Some (ascii_of_nat 8)
   else if n =? 102 then Some (ascii_of_nat 12)
   else if n =? 110 then Some (ascii_of_nat 10)
   else if n =? 114 then Some (ascii_of_nat 13)
   else if n =? 116 then Some (ascii_of_nat 9)
   else None)%nat.

(** The text of a JSON string, read from after its opening quote up to its
    closing quote. Of the escapes with four hexadecimal digits it knows the
    ones below 256, which are all that [Js.quote] writes. *)
Fixpoint unquote_until (s : string) : option string :=
  match s with
  | EmptyString => None
  | String c s1 =>
      let n := nat_of_ascii c in
      if (n =? 34)%nat then Some EmptyString
      else if (n =? 92)%nat then
        match s1 with
        | EmptyString => None
        | String d s2 =>
            if (nat_of_ascii d =? 117)%nat then
              match s2 with
              | String h1 (String h2 (String h3 (String h4 s6))) =>
                  if ((hex_val h1 =? 0) && (hex_val h2 =? 0))%nat then
                    option_map
                      (String (ascii_of_nat (16 * hex_val h3 + hex_val h4)))
                      (unquote_until s6)
                  else None
              | _ => None
              end
            else
              match escaped (nat_of_ascii d) with
              | Some ch => option_map (String ch) (unquote_until s2)
              | None => None
              end
        end
      else option_map (String c) (unquote_until s1)
  end.

Fixpoint drop (n : nat) (s : string) : string :=
  match n, s with
  | O, _ => s
  | S n', String _ s' => drop n' s'
  | S _, EmptyString => EmptyString
  end.

(** What comes before the query text in the body of a search request. *)
Definition before_query : string :=
  "{" ++ Str.dq ++ "query" ++ Str.dq ++ ":{" ++ Str.dq ++ "inputs" ++ Str.dq
  ++ ":{" ++ Str.dq ++ "text" ++ Str.dq ++ ":" ++ Str.dq.

(** What comes after it. *)
Definition after_query : string :=
  "}," ++ Str.dq ++ "top_k" ++ Str.dq ++ ":4}," ++ Str.dq ++ "fields" ++ Str.dq
  ++ ":[" ++ Str.dq ++ "id" ++ Str.dq ++ "," ++ Str.dq ++ "text" ++ Str.dq ++ "]}".

(** The query text of the body of a search request, as the index reads it. *)
Definition query_of (body : string) : option string :=
  if String.prefix before_query body
  then unquote_until (drop (String.length before_query) body)
  else None.

End Body.

(* ===================================================================== *)
(** * Collaborators that throw any value *)
(* ===================================================================== *)

(** What is thrown, or what a promise is rejected with: an [Error] object,
    or another value ([undefined], [null], a string, a number, a plain
    object). *)
Inductive thrown : Type :=
| ThrownError (e : Error)
| ThrownValue (v : jsval).

(** [RagService] again, for collaborators whose calls end with a value or
    with anything thrown. What the language itself throws (a [TypeError],
    the [Error] of [ask]) and what [getOrThrow], [response.json()] and the
    context assembly throw stay [Error] objects. *)
Module Any.

(** How a call ends. *)
Inductive settled (A : Type) : Type :=
| Fulfilled (a : A)
| Rejected (t : thrown).
Arguments Fulfilled {A} a.
Arguments Rejected {A} t.

Definition of_outcome {A : Type} (o : outcome A) : settled A :=
  match o with
  | Returned a => Fulfilled a
  | Thrown e => Rejected (ThrownError e)
  end.

(** The outside world, as [Env], its calls ending as [settled]. *)
Record World : Type := {
  world_config : string -> option string;
  world_describeIndex : list Event -> Pinecone -> string -> settled IndexModel;
  world_invoke : list Event -> ChainCall -> settled string;
  world_fetch : list Event -> string -> RequestInit -> settled Response
}.

(** An [Env] is a world that throws [Error] objects only. *)
Definition of_env (env : Env) : World :=
  {| world_config := config env;
     world_describeIndex := fun h p n => of_outcome (describeIndex env h p n);
     world_invoke := fun h c => of_outcome (invoke env h c);
     world_fetch := fun h u i => of_outcome (fetch env h u i) |}.

(** [configService.getOrThrow(key)]. *)
Definition getOrThrow (W : World) (key : string) : outcome string :=
  match world_config W key with
  | Some v => Returned v
  | None =>
      Thrown (mkError ("Configuration key " ++ Str.dq ++ key ++ Str.dq
                       ++ " does not exist"))
  end.

(** The monad of the methods. *)
Definition P (A : Type) : Type := State -> settled A * State.

Definition ret {A : Type} (a : A) : P A := fun st => (Fulfilled a, st).

Definition throw {A : Type} (e : Error) : P A :=
  fun st => (Rejected (ThrownError e), st).

Definition bind {A B : Type} (c : P A) (k : A -> P B) : P B :=
  fun st =>
    match c st with
    | (Fulfilled a, st') => k a st'
    | (Rejected t, st') => (Rejected t, st')
    end.

Notation "x <<- c ;; k" := (bind c (fun x => k))
  (at level 61, c at next level, right associativity).
Notation "c ;;; k" := (bind c (fun _ => k))
  (at level 61, right associativity).

Definition try_catch {A : Type} (body : P A) (handler : thrown -> P A) : P A :=
  fun st =>
    match body st with
    | (Fulfilled a, st') => (Fulfilled a, st')
    | (Rejected t, st') => handler t st'
    end.

Definition lift {A : Type} (c : outcome A) : P A := fun st => (of_outcome c, st).

Definition self : P RagService := fun st => (Fulfilled (this st), st).

Definition set_indexHost (h : string) : P unit :=
  fun st =>
    (Fulfilled tt, {| this := with_indexHost h (this st); history := history st |}).

Definition call {A : Type} (ev : Event) (answer : list Event -> settled A) : P A :=
  fun st => (answer (history st), after ev st).

Definition logger_log (msg : string) : P unit :=
  call (LoggerLog msg) (fun _ => Fulfilled tt).

(** [logger.error(msg, error)] for whatever was caught. *)
Definition logger_error (msg : string) (error : thrown) : P unit :=
  match error with
  | ThrownError e => call (LoggerError msg e) (fun _ => Fulfilled tt)
  | ThrownValue v => call (LoggerErrorValue msg v) (fun _ => Fulfilled tt)
  end.

(** [error.message] for whatever was caught: the message of an [Error]
    object; a [TypeError] for [undefined] and [null]; the [message]
    property of a plain object, if any; [undefined] for the other
    values. *)
Definition message_of (error : thrown) : outcome jsval :=
  match error with
  | ThrownError e => Returned (Some (JStr (message e)))
  | ThrownValue None =>
      Thrown (mkError "Cannot read properties of undefined (reading 'message')")
  | ThrownValue (Some JNull) =>
      Thrown (mkError "Cannot read properties of null (reading 'message')")
  | ThrownValue (Some (JObj ps)) => Returned (Js.lookup "message" ps)
  | ThrownValue (Some _) => Returned None
  end.

(** The object [ask] resolves to: its properties, whose values are
    strings but for [error], which is what [error.message] gave. *)
Definition Result : Type := list (string * jsval).

Definition str (s : string) : jsval := Some (JStr s).

Definition of_result (r : AskResult) : Result :=
  map (fun kv : string * string => (fst kv, str (snd kv))) r.

Section Methods.

Variable W : World.

Definition pinecone_describeIndex (name : string) : P IndexModel :=
  s <<- self ;;
  call (DescribeIndex (pinecone s) name)
       (fun h => world_describeIndex W h (pinecone s) name).

Definition chain_invoke (template : string) (input : list (string * string))
    : P string :=
  s <<- self ;;
  let c := {| chain_llm := llm s; chain_template := template;
              chain_input := input |} in
  call (ChainInvoke c) (fun h => world_invoke W h c).

Definition do_fetch (url : string) (init : RequestInit) : P Response :=
  call (Fetch url init) (fun h => world_fetch W h url init).

(** [onModuleInit()]. *)
Definition onModuleInit : P unit :=
  try_catch
    (s <<- self ;;
     indexDescription <<- pinecone_describeIndex (indexName s) ;;
     set_indexHost (host indexDescription) ;;;
     s <<- self ;;
     logger_log ("Pinecone Index Host found: " ++ indexHost s))
    (fun error =>
       logger_error "Failed to get Pinecone index host" error).

(** [translateToEnglish(text)]. *)
Definition translateToEnglish (text : string) : P string :=
  res <<- chain_invoke template [("text", text)] ;;
  ret (Str.trim res).

(** [ask], lines 73-76. *)
Definition resolveIndexHost : P unit :=
  s <<- self ;;
  if Str.is_empty (indexHost s) then
    desc <<- pinecone_describeIndex (indexName s) ;;
    set_indexHost (host desc)
  else ret tt.

(** [ask], lines 73-84 (step 1). *)
Definition prepare (originalQuestion : string) : P string :=
  resolveIndexHost ;;;
  englishQuestion <<- translateToEnglish originalQuestion ;;
  logger_log ("原始问题: " ++ Str.dq ++ originalQuestion ++ Str.dq) ;;;
  logger_log ("翻译后用于检索的问题: " ++ Str.dq ++ englishQuestion ++ Str.dq) ;;;
  ret englishQuestion.

(** [ask], lines 89-113 (step 2). *)
Definition search (englishQuestion : string) : P json :=
  s <<- self ;;
  let searchUrl := search_url (indexHost s) in
  key <<- lift (getOrThrow W "PINECONE_API_KEY") ;;
  response <<- do_fetch searchUrl (search_init key englishQuestion) ;;
  (if negb (ok response) then
     throw (mkError ("Pinecone Search Error: " ++ statusText response))
   else ret tt) ;;;
  searchResult <<- lift (json_body response) ;;
  lift (hits_of searchResult).

(** [ask], lines 116-173 (step 3). *)
Definition respond (originalQuestion englishQuestion : string) (hits : json)
    : P Result :=
  len <<- lift (get hits Js.K_length) ;;
  if Js.is_zero len then
    ret [("question", str originalQuestion);
         ("englishQuestion", str englishQuestion);
         ("answer", str NO_INFORMATION)]
  else
    context <<- lift (assemble hits) ;;
    answer <<- chain_invoke finalTemplate
                 [("context", context);
                  ("english_question", englishQuestion);
                  ("original_question", originalQuestion)] ;;
    ret [("originalQuestion", str originalQuestion);
         ("englishQuestion", str englishQuestion);
         ("answer", str answer)].

(** The [try] block of [ask]. *)
Definition ask_try (originalQuestion : string) : P Result :=
  englishQuestion <<- prepare originalQuestion ;;
  hits <<- search englishQuestion ;;
  respond originalQuestion englishQuestion hits.

(** The [catch] block of [ask]: [error.message] is read from whatever was
    caught, and what reading it throws leaves [ask]. *)
Definition ask_catch (originalQuestion : string) (error : thrown) : P Result :=
  logger_error "RAG Process Error:" error ;;;
  msg <<- lift (message_of error) ;;
  ret [("question", str originalQuestion);
       ("answer", str SYSTEM_ERROR);
       ("error", msg)].

(** [ask(originalQuestion)]. *)
Definition ask (originalQuestion : string) : P Result :=
  try_catch (ask_try originalQuestion) (ask_catch originalQuestion).

End Methods.

End Any.

(** A world where the generation service rejects with [undefined]. *)
Definition rejecting_world : Any.World :=
  {| Any.world_config := Sample.settings;
     Any.world_describeIndex := fun h _ _ => Any.of_outcome (Sample.found h);
     Any.world_invoke := fun _ _ => Any.Rejected (ThrownValue None);
     Any.world_fetch := fun _ _ _ => Any.of_outcome Sample.unavailable |}.

(* ===================================================================== *)
(** * Tactics for runs *)
(* ===================================================================== *)

(** Unfolds the methods down to the calls they make. *)
Ltac run :=
  unfold ask, onModuleInit, try_catch, ask_try, ask_catch, prepare, search,
    respond, resolveIndexHost, translateToEnglish, chain_invoke,
    pinecone_describeIndex, do_fetch, logger_log, logger_error, call, bind,
    self, lift, ret, throw, set_indexHost, after;
  cbn [this history fst snd].

(** Splits on the answer to the next call, in the order the calls are made. *)
Ltac step :=
  match goal with
  | |- context [Str.is_empty (indexHost ?s)] =>
      destruct (Str.is_empty (indexHost s)) eqn:?
  | |- context [describeIndex ?e ?h ?p ?n] => destruct (describeIndex e h p n) eqn:?
  | |- context [invoke ?e ?h ?c] => destruct (invoke e h c) eqn:?
  | |- context [getOrThrow ?e ?k] => destruct (getOrThrow e k) eqn:?
  | |- context [fetch ?e ?h ?u ?i] => destruct (fetch e h u i) eqn:?
  | |- context [ok ?r] => destruct (ok r) eqn:?
  | |- context [json_body ?r] => destruct (json_body r) eqn:?
  | |- context [hits_of ?r] => destruct (hits_of r) eqn:?
  | |- context [get ?v ?k] => destruct (get v k) eqn:?
  | |- context [Js.is_zero ?v] => destruct (Js.is_zero v) eqn:?
  | |- context [assemble ?v] => destruct (assemble v) eqn:?
  end;
  cbn [this history fst snd negb].

(** The same two for the methods of [Any]. *)
Ltac run_any :=
  unfold Any.ask, Any.onModuleInit, Any.try_catch, Any.ask_try, Any.ask_catch,
    Any.prepare, Any.search, Any.respond, Any.resolveIndexHost,
    Any.translateToEnglish, Any.chain_invoke, Any.pinecone_describeIndex,
    Any.do_fetch, Any.logger_log, Any.logger_error, Any.call, Any.bind,
    Any.self, Any.lift, Any.ret, Any.throw, Any.set_indexHost, after;
  cbn [this history fst snd].

Ltac step_any :=
  match goal with
  | |- context [Str.is_empty (indexHost ?s)] =>
      destruct (Str.is_empty (indexHost s)) eqn:?
  | |- context [Any.world_describeIndex ?w ?h ?p ?n] =>
      destruct (Any.world_describeIndex w h p n) eqn:?
  | |- context [Any.world_invoke ?w ?h ?c] =>
      destruct (Any.world_invoke w h c) eqn:?
  | |- context [Any.getOrThrow ?w ?k] => destruct (Any.getOrThrow w k) eqn:?
  | |- context [Any.world_fetch ?w ?h ?u ?i] =>
      destruct (Any.world_fetch w h u i) eqn:?
  | |- context [ok ?r] => destruct (ok r) eqn:?
  | |- context [json_body ?r] => destruct (json_body r) eqn:?
  | |- context [hits_of ?r] => destruct (hits_of r) eqn:?
  | |- context [get ?v ?k] => destruct (get v k) eqn:?
  | |- context [Js.is_zero ?v] => destruct (Js.is_zero v) eqn:?
  | |- context [assemble ?v] => destruct (assemble v) eqn:?
  end;
  cbn [this history fst snd negb Any.of_outcome].

(** Brings a history to the form [old ++ new]. *)
Ltac tidy := unfold after; cbn [this history]; rewrite <- ?app_assoc; cbn [app].

(* ===================================================================== *)
(** * Facts about strings and [join] *)
(* ===================================================================== *)

Lemma append_nil_r (s : string) : s ++ EmptyString = s.
Proof. induction s as [|c s IH]; simpl; [reflexivity | now rewrite IH]. Qed.

Lemma append_assoc (a b c : string) : (a ++ b) ++ c = a ++ (b ++ c).
Proof. induction a as [|x a IH]; simpl; [reflexivity | now rewrite IH]. Qed.

(** The decimal text of a natural number determines it. *)
Lemma of_nat_inj (n m : nat) : Str.of_nat n = Str.of_nat m -> n = m.
Proof.
  unfold Str.of_nat. intros E.
  apply (f_equal NilEmpty.uint_of_string) in E.
  rewrite !NilEmpty.usu in E. injection E as E.
  now apply Unsigned.to_uint_inj.
Qed.

Lemma of_nat_succ_nonzero (n : nat) : String.eqb (Str.of_nat (S n)) "0" = false.
Proof.
  apply String.eqb_neq. intros E.
  change "0" with (Str.of_nat 0) in E.
  apply of_nat_inj in E. discriminate.
Qed.

Section JoinFacts.

Variable sep : string.

(** The loop of [join], started anywhere. *)
Lemma join_from_spec (l : list jsval) (k : nat) (R : string) :
  Js.join_from sep k R l =
  texts <~ mapO Js.join_element l ;;
  Returned
    match texts with
    | [] => R
    | _ :: _ =>
        R ++ (if (k =? 0)%nat then EmptyString else sep)
          ++ String.concat sep texts
    end.
Proof.
  revert k R. induction l as [|e rest IH]; intros k R; [reflexivity|].
  cbn [Js.join_from mapO]. destruct (Js.join_element e) as [t|err];
    [|reflexivity].
  cbn [bindO]. rewrite IH.
  destruct (mapO Js.join_element rest) as [[|t' ts]|err]; cbn [bindO];
    [| |reflexivity].
  - cbn. destruct (k =? 0)%nat; cbn; now rewrite ?append_assoc.
  - cbn [String.concat Nat.eqb].
    destruct (k =? 0)%nat; cbn [append]; now rewrite ?append_assoc.
Qed.

(** [join] gives the texts of the elements, in order, with the separator
    between neighbours; it throws where the first element that cannot be
    printed throws. *)
Lemma join_concat (l : list jsval) :
  Js.join sep l =
  texts <~ mapO Js.join_element l ;; Returned (String.concat sep texts).
Proof.
  unfold Js.join. rewrite join_from_spec.
  destruct (mapO Js.join_element l) as [[|t ts]|err]; reflexivity.
Qed.

(** Joining a list that is split in two. *)
Lemma concat_app (l1 l2 : list string) :
  l1 <> [] -> l2 <> [] ->
  String.concat sep (l1 ++ l2) =
  String.concat sep l1 ++ sep ++ String.concat sep l2.
Proof.
  intros H1 H2. induction l1 as [|x l1 IH]; [contradiction|].
  destruct l1 as [|y l1].
  - cbn. destruct l2; [contradiction | reflexivity].
  - change ((x :: y :: l1) ++ l2)%list with (x :: (y :: l1) ++ l2)%list.
    cbn [String.concat app]. cbn [String.concat app] in IH.
    rewrite IH by discriminate. now rewrite !append_assoc.
Qed.

End JoinFacts.

(** What [mapO] returns has one entry for each element, in order. *)
Lemma mapO_returned {A B : Type} (f : A -> outcome B) (l : list A)
    (ys : list B) :
  mapO f l = Returned ys ->
  length ys = length l
  /\ forall i x, nth_error l i = Some x ->
       exists y, nth_error ys i = Some y /\ f x = Returned y.
Proof.
  revert ys. induction l as [|x l IH]; intros ys; cbn [mapO].
  - intros [= <-]. split; [reflexivity|]. intros [|i] x'; discriminate.
  - destruct (f x) as [y|e] eqn:Hfx; [|discriminate]. cbn [bindO].
    destruct (mapO f l) as [ys'|e]; [|discriminate]. cbn [bindO].
    intros [= <-]. destruct (IH ys' eq_refl) as (Hlen & Hnth).
    split; [cbn; now rewrite Hlen|].
    intros [|i] x'; cbn [nth_error].
    + intros [= <-]. now exists y.
    + apply Hnth.
Qed.

(** [mapO] returns when [f] returns on each element. *)
Lemma mapO_returns {A B : Type} (f : A -> outcome B) (l : list A) :
  Forall (fun x => exists y, f x = Returned y) l ->
  exists ys, mapO f l = Returned ys.
Proof.
  induction 1 as [|x l (y & Hy) _ (ys & Hys)]; [now exists []|].
  exists (y :: ys). cbn [mapO]. now rewrite Hy, Hys.
Qed.

(* ===================================================================== *)
(** * Context assembly *)
(* ===================================================================== *)

Section Assembly.

Import Context.

Lemma get_not_null (v : json) (k : Js.PropertyKey) :
  v <> JNull -> get v k = Returned (Js.member v k).
Proof. destruct v; [contradiction | reflexivity ..]. Qed.

(** The callback of [map] on a hit that is not [null]: it returns, and
    [join] prints what it returns as [fragment_text] says. *)
Lemma hit_text_returns (hit : json) :
  hit <> JNull ->
  exists v, hit_text hit = Returned v /\ Js.join_element v = fragment_text hit.
Proof.
  intros Hn. unfold hit_text, fragment_text.
  rewrite (get_not_null _ Hn). cbn [bindO].
  destruct (Js.member hit Js.K_fields) as [fields|].
  - destruct (Js.truthy_val (Js.opt_member (Some fields) Js.K_combined_context)).
    + eexists; split; reflexivity.
    + eexists; split; reflexivity.
  - cbn. eexists; split; reflexivity.
Qed.

Lemma hit_text_null : exists e, hit_text JNull = Thrown e.
Proof. eexists; reflexivity. Qed.

Lemma map_hit_text (l : list json) :
  Forall (fun hit => hit <> JNull) l ->
  exists values,
    mapO hit_text l = Returned values
    /\ mapO Js.join_element values = mapO fragment_text l.
Proof.
  induction 1 as [|hit l Hn _ (values & Hm & Ht)].
  - exists []; split; reflexivity.
  - destruct (hit_text_returns Hn) as (v & Hv & Hj).
    exists (v :: values). cbn [mapO]. rewrite Hv, Hm. cbn [bindO].
    split; [reflexivity | now rewrite Hj, Ht].
Qed.

(** [hits.map(...).join(...)] on an array without [null]. *)
Lemma assemble_array (l : list json) :
  Forall (fun hit => hit <> JNull) l ->
  assemble (JArr l) =
  texts <~ mapO fragment_text l ;; Returned (String.concat SEPARATOR texts).
Proof.
  intros Hl. destruct (map_hit_text Hl) as (values & Hm & Ht).
  unfold assemble, Array_map. rewrite Hm. cbn [bindO].
  now rewrite join_concat, Ht.
Qed.

(** A hit whose fields hold a text that is truthy contributes the text. *)
Lemma fragment_text_truthy (hit : json) (fs : list (string * json)) (t : string) :
  Js.member hit Js.K_fields = Some (JObj fs) ->
  Js.lookup "combined_context" fs = Some (JStr t) ->
  Str.is_empty t = false ->
  fragment_text hit = Returned t.
Proof.
  intros Hf Ht He. unfold fragment_text. rewrite Hf.
  cbn [Js.opt_member Js.member Js.key_name]. rewrite Ht.
  cbn [Js.truthy_val Js.truthy]. rewrite He. reflexivity.
Qed.

(** A hit whose fields hold no text, or a falsy one, contributes the JSON
    text of its fields. *)
Lemma fragment_text_dump (hit : json) (fs : list (string * json)) :
  Js.member hit Js.K_fields = Some (JObj fs) ->
  Js.truthy_val (Js.lookup "combined_context" fs) = false ->
  fragment_text hit = Returned (Js.stringify (JObj fs)).
Proof.
  intros Hf Ht. unfold fragment_text. rewrite Hf.
  cbn [Js.opt_member Js.member Js.key_name]. now rewrite Ht.
Qed.

Lemma stringify_object_nonempty (fs : list (string * json)) :
  Str.is_empty (Js.stringify (JObj fs)) = false.
Proof. reflexivity. Qed.

End Assembly.

(* ===================================================================== *)
(** * Runs of the methods *)
(* ===================================================================== *)

Section Runs.

Variable env : Env.

Lemma resolveIndexHost_set (st : State) :
  Str.is_empty (indexHost (this st)) = false ->
  resolveIndexHost env st = (Returned tt, st).
Proof. intros H. run. now rewrite H. Qed.

Lemma resolveIndexHost_unset (st : State) :
  Str.is_empty (indexHost (this st)) = true ->
  resolveIndexHost env st =
  let ev := DescribeIndex (pinecone (this st)) (indexName (this st)) in
  match describeIndex env (history st) (pinecone (this st)) (indexName (this st)) with
  | Returned d =>
      (Returned tt,
       {| this := with_indexHost (host d) (this st);
          history := (history st ++ [ev])%list |})
  | Thrown e => (Thrown e, after ev st)
  end.
Proof. intros H. run. rewrite H. now step. Qed.

Lemma translateToEnglish_run (text : string) (st : State) :
  translateToEnglish env text st =
  let c := translation_call (this st) text in
  (match invoke env (history st) c with
   | Returned res => Returned (Str.trim res)
   | Thrown e => Thrown e
   end, after (ChainInvoke c) st).
Proof. run. unfold translation_call. cbn zeta. now step. Qed.

Lemma search_run (englishQuestion : string) (st : State) :
  search env englishQuestion st =
  match getOrThrow env "PINECONE_API_KEY" with
  | Thrown e => (Thrown e, st)
  | Returned key =>
      let url := search_url (indexHost (this st)) in
      let init := search_init key englishQuestion in
      (match fetch env (history st) url init with
       | Thrown e => Thrown e
       | Returned response =>
           if ok response then
             searchResult <~ json_body response ;; hits_of searchResult
           else
             Thrown (mkError ("Pinecone Search Error: " ++ statusText response))
       end, after (Fetch url init) st)
  end.
Proof.
  run. cbn zeta.
  destruct (getOrThrow env "PINECONE_API_KEY") as [key|e]; [|reflexivity].
  destruct (fetch env _ _ _) as [response|e]; [|reflexivity].
  destruct (ok response); cbn [negb]; [|reflexivity].
  destruct (json_body response); reflexivity.
Qed.

Lemma respond_run (originalQuestion englishQuestion : string) (hits : json)
    (st : State) :
  respond env originalQuestion englishQuestion hits st =
  match get hits Js.K_length with
  | Thrown e => (Thrown e, st)
  | Returned len =>
      if Js.is_zero len then
        (Returned [("question", originalQuestion);
                   ("englishQuestion", englishQuestion);
                   ("answer", NO_INFORMATION)], st)
      else
        match assemble hits with
        | Thrown e => (Thrown e, st)
        | Returned context =>
            let c := answer_call (this st) context englishQuestion
                       originalQuestion in
            (match invoke env (history st) c with
             | Returned answer =>
                 Returned [("originalQuestion", originalQuestion);
                           ("englishQuestion", englishQuestion);
                           ("answer", answer)]
             | Thrown e => Thrown e
             end, after (ChainInvoke c) st)
        end
  end.
Proof. run. unfold answer_call. cbn zeta. repeat step; reflexivity. Qed.

Lemma ask_try_run (originalQuestion : string) (st : State) :
  ask_try env originalQuestion st =
  match prepare env originalQuestion st with
  | (Thrown e, st0) => (Thrown e, st0)
  | (Returned englishQuestion, st0) =>
      match search env englishQuestion st0 with
      | (Thrown e, st1) => (Thrown e, st1)
      | (Returned hits, st1) =>
          respond env originalQuestion englishQuestion hits st1
      end
  end.
Proof. reflexivity. Qed.

Lemma ask_run (originalQuestion : string) (st : State) :
  ask env originalQuestion st =
  match ask_try env originalQuestion st with
  | (Returned r, st') => (Returned r, st')
  | (Thrown e, st') =>
      (Returned [("question", originalQuestion);
                 ("answer", SYSTEM_ERROR);
                 ("error", message e)],
       after (LoggerError "RAG Process Error:" e) st')
  end.
Proof.
  unfold ask, try_catch.
  destruct (ask_try env originalQuestion st) as [[r|e] st']; reflexivity.
Qed.

(** What the [try] block can return. *)
Lemma ask_try_returned (originalQuestion : string) (st st' : State)
    (r : AskResult) :
  ask_try env originalQuestion st = (Returned r, st') ->
  exists englishQuestion st0,
    prepare env originalQuestion st = (Returned englishQuestion, st0)
    /\ (r = [("question", originalQuestion);
             ("englishQuestion", englishQuestion);
             ("answer", NO_INFORMATION)]
        \/ exists answer,
             r = [("originalQuestion", originalQuestion);
                  ("englishQuestion", englishQuestion);
                  ("answer", answer)]).
Proof.
  rewrite ask_try_run.
  destruct (prepare env originalQuestion st) as [[eq|e] st0]; [|discriminate].
  destruct (search env eq st0) as [[hits|e] st1]; [|discriminate].
  rewrite respond_run. intros H. exists eq, st0. split; [reflexivity|].
  destruct (get hits Js.K_length) as [len|e]; [|discriminate].
  destruct (Js.is_zero len).
  - left. now injection H as <- _.
  - destruct (assemble hits) as [context|e]; [|discriminate].
    cbn zeta in H.
    destruct (invoke env (history st1) _) as [answer|e]; [|discriminate].
    right. exists answer. now injection H as <- _.
Qed.

End Runs.

(** What the constructor returns, when it returns. *)
Lemma constructor_returned (env : Env) (s : RagService) :
  constructor env = Returned s ->
  exists google key name,
    getOrThrow env "GOOGLE_API_KEY" = Returned google
    /\ getOrThrow env "PINECONE_API_KEY" = Returned key
    /\ getOrThrow env "PINECONE_INDEX" = Returned name
    /\ Str.is_empty google = false
    /\ Str.is_empty key = false
    /\ s = {| llm := {| model := "gemini-2.5-flash";
                        temperature := (3 # 10)%Q;
                        apiKey := google |};
              pinecone := {| pinecone_apiKey := key |};
              indexName := name;
              indexHost := EmptyString |}.
Proof.
  unfold constructor, new_ChatGoogleGenerativeAI, new_Pinecone.
  destruct (getOrThrow env "GOOGLE_API_KEY") as [google|]; [|discriminate].
  cbn [bindO apiKey].
  destruct (Str.is_empty google) eqn:Hg; [discriminate|]. cbn [bindO].
  destruct (getOrThrow env "PINECONE_API_KEY") as [key|]; [|discriminate].
  cbn [bindO pinecone_apiKey].
  destruct (Str.is_empty key) eqn:Hk; [discriminate|]. cbn [bindO].
  destruct (getOrThrow env "PINECONE_INDEX") as [name|]; [|discriminate].
  cbn [bindO]. intros [= <-]. now exists google, key, name.
Qed.

(* ===================================================================== *)
(** * The orchestrator never throws *)
(* ===================================================================== *)

(** A search whose response has a status that is not a success throws,
    with the status text in the message. *)
Lemma search_not_ok (env : Env) (englishQuestion key : string) (st : State)
    (response : Response) :
  getOrThrow env "PINECONE_API_KEY" = Returned key ->
  fetch env (history st) (search_url (indexHost (this st)))
    (search_init key englishQuestion) = Returned response ->
  ok response = false ->
  search env englishQuestion st =
  (Thrown (mkError ("Pinecone Search Error: " ++ statusText response)),
   after (Fetch (search_url (indexHost (this st)))
            (search_init key englishQuestion)) st).
Proof.
  intros Hkey Hfetch Hok. rewrite search_run, Hkey. cbn zeta.
  now rewrite Hfetch, Hok.
Qed.

(** With collaborators that throw [Error] objects, [ask] returns a result,
    and the result has an [answer]. When the [try] block throws [e], the
    result is the degraded one: [answer] is the fixed message and [error]
    is [e.message]. In particular, when the search response is not a
    success, [error] is ["Pinecone Search Error: "] followed by the status
    text. *)
Lemma ask_contains_errors (env : Env) (originalQuestion : string) (st : State) :
  exists r st',
    ask env originalQuestion st = (Returned r, st')
    /\ (exists a, prop "answer" r = Some a)
    /\ (forall e st1,
          ask_try env originalQuestion st = (Thrown e, st1) ->
          r = [("question", originalQuestion);
               ("answer", "系统繁忙，请稍后再试 (System Error).");
               ("error", message e)])
    /\ (forall englishQuestion st0 key response,
          prepare env originalQuestion st = (Returned englishQuestion, st0) ->
          getOrThrow env "PINECONE_API_KEY" = Returned key ->
          fetch env (history st0) (search_url (indexHost (this st0)))
            (search_init key englishQuestion) = Returned response ->
          ok response = false ->
          r = [("question", originalQuestion);
               ("answer", "系统繁忙，请稍后再试 (System Error).");
               ("error", "Pinecone Search Error: " ++ statusText response)]).
Proof.
  rewrite ask_run.
  destruct (ask_try env originalQuestion st) as [[r|e] st'] eqn:Htry.
  - exists r, st'. split; [reflexivity|].
    destruct (ask_try_returned _ _ _ Htry) as (eq & st0 & Hprep & Hr).
    split; [|split].
    + destruct Hr as [-> | (a & ->)]; eexists; reflexivity.
    + intros e st1 [=].
    + intros eq' st0' key response Hprep' Hkey Hfetch Hok.
      rewrite Hprep in Hprep'. injection Hprep' as <- <-.
      rewrite ask_try_run, Hprep, (search_not_ok _ _ _ Hkey Hfetch Hok) in Htry.
      discriminate.
  - eexists _, _. split; [reflexivity|]. split; [|split].
    + eexists; reflexivity.
    + intros e' st1 [= <- <-]. reflexivity.
    + intros eq st0 key response Hprep Hkey Hfetch Hok.
      rewrite ask_try_run, Hprep, (search_not_ok _ _ _ Hkey Hfetch Hok) in Htry.
      injection Htry as <- _. reflexivity.
Qed.

(** At a sample: the index answers 503 Service Unavailable. *)
Lemma ask_contains_errors_sample :
  fst (ask (Sample.world Sample.found (Returned Sample.english) Sample.unavailable)
         Sample.question Sample.fresh)
  = Returned [("question", Sample.question);
              ("answer", SYSTEM_ERROR);
              ("error", "Pinecone Search Error: Service Unavailable")].
Proof.
  destruct (ask_contains_errors
              (Sample.world Sample.found (Returned Sample.english) Sample.unavailable)
              Sample.question Sample.fresh)
    as (r & st' & Hrun & _ & _ & Hbad).
  rewrite Hrun. cbn [fst].
  erewrite Hbad by reflexivity. reflexivity.
Defined.


(* ===================================================================== *)
(** * Retrieval without fragments *)
(* ===================================================================== *)

Lemma invocations_app (l1 l2 : list Event) :
  invocations (l1 ++ l2) = (invocations l1 ++ invocations l2)%list.
Proof.
  induction l1 as [|ev l1 IH]; [reflexivity|].
  destruct ev; cbn [invocations app]; now rewrite IH.
Qed.

Lemma fetches_app (l1 l2 : list Event) :
  fetches (l1 ++ l2) = (fetches l1 ++ fetches l2)%list.
Proof.
  induction l1 as [|ev l1 IH]; [reflexivity|].
  destruct ev; cbn [fetches app]; now rewrite IH.
Qed.

(** The two templates differ. *)
Lemma templates_differ : String.eqb template finalTemplate = false.
Proof. vm_compute. reflexivity. Qed.

(** Step 1 invokes the chain with the translation template only, and makes
    no search request. *)
Lemma prepare_trace (env : Env) (originalQuestion : string) (st : State) :
  exists new,
    history (snd (prepare env originalQuestion st)) = (history st ++ new)%list
    /\ Forall (fun c => chain_template c = template) (invocations new)
    /\ fetches new = [].
Proof.
  run. repeat step; tidy.
  all: eexists; split; [reflexivity|]; cbn [invocations fetches].
  all: split; [repeat constructor | reflexivity].
Qed.

(** A search that returns did one thing: the request. *)
Lemma search_returned (env : Env) (englishQuestion : string) (st st1 : State)
    (hits : json) :
  search env englishQuestion st = (Returned hits, st1) ->
  exists key,
    st1 = after (Fetch (search_url (indexHost (this st)))
                   (search_init key englishQuestion)) st.
Proof.
  rewrite search_run.
  destruct (getOrThrow env "PINECONE_API_KEY") as [key|e]; [|discriminate].
  cbn zeta. intros [= _ <-]. now exists key.
Qed.

(** Zero hits: the fixed answer, and nothing else is done. *)
Lemma respond_no_hits (env : Env) (originalQuestion englishQuestion : string)
    (st : State) :
  respond env originalQuestion englishQuestion (JArr []) st =
  (Returned [("question", originalQuestion);
             ("englishQuestion", englishQuestion);
             ("answer", NO_INFORMATION)], st).
Proof. reflexivity. Qed.

(** C2. When the retrieval returns zero fragments, [ask] returns the fixed
    bilingual answer, with the question and its translation and without
    [error]; the search request is the last call it makes, and none of the
    chain invocations of the run uses the answer template. *)
Theorem empty_retrieval_short_circuits (env : Env) (originalQuestion
    englishQuestion : string) (st st0 st1 : State) :
  prepare env originalQuestion st = (Returned englishQuestion, st0) ->
  search env englishQuestion st0 = (Returned (JArr []), st1) ->
  let r := [("question", originalQuestion);
            ("englishQuestion", englishQuestion);
            ("answer", "No relevant product information found. (未找到相关产品信息)")] in
  ask env originalQuestion st = (Returned r, st1)
  /\ prop "error" r = None
  /\ (exists key,
        history st1 =
        (history st0 ++ [Fetch (search_url (indexHost (this st0)))
                           (search_init key englishQuestion)])%list)
  /\ (exists new,
        history st1 = (history st ++ new)%list
        /\ Forall (fun c => String.eqb (chain_template c) finalTemplate = false)
             (invocations new)).
Proof.
  intros Hprep Hsearch r.
  split; [|split; [|split]].
  - now rewrite ask_run, ask_try_run, Hprep, Hsearch, respond_no_hits.
  - reflexivity.
  - destruct (search_returned _ _ _ Hsearch) as (key & ->). now exists key.
  - destruct (search_returned _ _ _ Hsearch) as (key & ->).
    destruct (prepare_trace env originalQuestion st) as (new & Hnew & Hinv & _).
    rewrite Hprep in Hnew. cbn [snd] in Hnew.
    eexists. unfold after. cbn [history]. rewrite Hnew, <- app_assoc.
    split; [reflexivity|].
    rewrite invocations_app. cbn [invocations]. rewrite app_nil_r.
    eapply Forall_impl; [|exact Hinv].
    intros c ->. exact templates_differ.
Qed.

(** C2 at a sample: the index finds nothing for the question. *)
Lemma empty_retrieval_short_circuits_witness :
  fst (ask (Sample.world Sample.found (Returned Sample.english)
              (Sample.respond_with (JObj [("result", JObj [("hits", JArr [])])])))
         Sample.question Sample.fresh)
  = Returned [("question", Sample.question);
              ("englishQuestion", Sample.english);
              ("answer", NO_INFORMATION)].
Proof.
  pose proof (@empty_retrieval_short_circuits
    (Sample.world Sample.found (Returned Sample.english)
       (Sample.respond_with (JObj [("result", JObj [("hits", JArr [])])])))
    Sample.question Sample.english Sample.fresh _ _ eq_refl eq_refl) as H.
  cbv zeta in H. destruct H as (Hrun & _). rewrite Hrun. reflexivity.
Defined.

(** C10, as the code has it. When the search succeeds and the body of its
    response, not [null] itself, has no [result], or a [result] without
    [hits], the hits are the empty list and [ask] returns the fixed answer
    of the empty retrieval. *)
Theorem missing_hits_fall_back (env : Env) (originalQuestion englishQuestion
    key : string) (st st0 : State) (response : Response) (searchResult : json) :
  prepare env originalQuestion st = (Returned englishQuestion, st0) ->
  getOrThrow env "PINECONE_API_KEY" = Returned key ->
  fetch env (history st0) (search_url (indexHost (this st0)))
    (search_init key englishQuestion) = Returned response ->
  ok response = true ->
  json_body response = Returned searchResult ->
  searchResult <> JNull ->
  (Js.member searchResult Js.K_result = None
   \/ exists result,
        Js.member searchResult Js.K_result = Some result
        /\ Js.opt_member (Some result) Js.K_hits = None) ->
  hits_of searchResult = Returned (JArr [])
  /\ ask env originalQuestion st =
     (Returned [("question", originalQuestion);
                ("englishQuestion", englishQuestion);
                ("answer", "No relevant product information found. (未找到相关产品信息)")],
      after (Fetch (search_url (indexHost (this st0)))
               (search_init key englishQuestion)) st0).
Proof.
  intros Hprep Hkey Hfetch Hok Hjson Hnull Hmiss.
  assert (Hhits : hits_of searchResult = Returned (JArr [])).
  { unfold hits_of. rewrite (get_not_null _ Hnull). cbn [bindO].
    destruct Hmiss as [-> | (result & -> & ->)]; reflexivity. }
  split; [exact Hhits|].
  rewrite ask_run, ask_try_run, Hprep, search_run, Hkey. cbn zeta.
  rewrite Hfetch, Hok, Hjson. cbn [bindO]. rewrite Hhits.
  now rewrite respond_no_hits.
Qed.

(** C10 at a sample: the body of the response is the empty object. *)
Lemma missing_hits_fall_back_witness :
  fst (ask (Sample.world Sample.found (Returned Sample.english)
              (Sample.respond_with (JObj [])))
         Sample.question Sample.fresh)
  = Returned [("question", Sample.question);
              ("englishQuestion", Sample.english);
              ("answer", NO_INFORMATION)].
Proof.
  assert (Hnull : JObj [] <> JNull) by discriminate.
  pose proof (@missing_hits_fall_back
    (Sample.world Sample.found (Returned Sample.english)
       (Sample.respond_with (JObj [])))
    Sample.question Sample.english "pinecone-key" Sample.fresh _ _ (JObj [])
    eq_refl eq_refl eq_refl eq_refl eq_refl Hnull (or_introl eq_refl)) as H.
  destruct H as (_ & Hrun). rewrite Hrun. reflexivity.
Defined.

(** C10 as the specification words it fails on a body that is [null]: it
    has no [result], reading [result] of it throws, and [ask] returns the
    degraded result in place of the answer of the empty retrieval. *)
Lemma missing_result_null_body_counterexample :
  ok {| ok := true; statusText := "OK"; json_body := Returned JNull |} = true
  /\ Js.member JNull Js.K_result = None
  /\ hits_of JNull =
     Thrown (mkError "Cannot read properties of null (reading 'result')")
  /\ fst (ask (Sample.world Sample.found (Returned Sample.english)
                 (Sample.respond_with JNull))
            Sample.question Sample.fresh)
     = Returned [("question", Sample.question);
                 ("answer", SYSTEM_ERROR);
                 ("error", "Cannot read properties of null (reading 'result')")].
Proof. repeat split; reflexivity. Qed.

(* ===================================================================== *)
(** * The search request *)
(* ===================================================================== *)

(** C7. Every search request [ask] makes goes to the namespace
    [lurky-products] of the index host, asks for [top_k] 4 and for the
    fields [id] and [text]; [ask] makes at most one. *)
Theorem search_request_fixed (env : Env) (originalQuestion : string) (st : State) :
  exists new,
    history (snd (ask env originalQuestion st)) = (history st ++ new)%list
    /\ (length (fetches new) <= 1)%nat
    /\ Forall
         (fun request : string * RequestInit =>
            fst request =
              "https://" ++ indexHost (this (snd (ask env originalQuestion st)))
              ++ "/records/namespaces/lurky-products/search"
            /\ exists englishQuestion,
                 body (snd request) =
                 Js.stringify
                   (JObj [("query",
                           JObj [("inputs", JObj [("text", JStr englishQuestion)]);
                                 ("top_k", JNum "4")]);
                          ("fields", JArr [JStr "id"; JStr "text"])]))
         (fetches new).
Proof.
  run. repeat step; tidy.
  all: eexists; split; [reflexivity|]; cbn [fetches length].
  all: split; [lia|].
  all: repeat constructor; cbn [fst snd this indexHost with_indexHost].
  all: eexists; reflexivity.
Qed.

(** The one search request of a sample question. *)
Example sample_search_request :
  fetches
    (history
       (snd (ask (Sample.world Sample.found (Returned Sample.english)
                    Sample.unavailable)
               Sample.question Sample.fresh)))
  = [("https://lurky-1a2b.svc.pinecone.io/records/namespaces/lurky-products/search",
      {| method := "POST";
         headers := [("Api-Key", "pinecone-key");
                     ("Content-Type", "application/json");
                     ("X-Pinecone-API-Version", "2024-10")];
         body := Js.stringify (search_body Sample.english) |})].
Proof. reflexivity. Qed.

(* ===================================================================== *)
(** * The index host *)
(* ===================================================================== *)

(** C8. The index host is kept once it is known. With a host that is set,
    [ask] does not look it up and leaves the service object as it is. With
    a host that is unset, the first call of [ask] is the lookup, made once;
    its answer becomes the host, and when it fails the host stays unset.
    When the lookup of [onModuleInit] fails, the failure is logged and the
    service object stays as it is; the constructor leaves the host unset,
    so the next [ask] looks it up again. *)
Theorem index_host_memoized (env : Env) :
  (forall originalQuestion st,
      Str.is_empty (indexHost (this st)) = false ->
      this (snd (ask env originalQuestion st)) = this st
      /\ exists new,
           history (snd (ask env originalQuestion st)) = (history st ++ new)%list
           /\ existsb is_describeIndex new = false)
  /\ (forall originalQuestion st,
        Str.is_empty (indexHost (this st)) = true ->
        let lookup :=
          describeIndex env (history st) (pinecone (this st)) (indexName (this st)) in
        (exists rest,
           history (snd (ask env originalQuestion st)) =
           (history st
            ++ DescribeIndex (pinecone (this st)) (indexName (this st)) :: rest)%list
           /\ existsb is_describeIndex rest = false)
        /\ (forall d, lookup = Returned d ->
              this (snd (ask env originalQuestion st)) =
              with_indexHost (host d) (this st))
        /\ (forall e, lookup = Thrown e ->
              this (snd (ask env originalQuestion st)) = this st))
  /\ (forall st e,
        describeIndex env (history st) (pinecone (this st)) (indexName (this st))
        = Thrown e ->
        onModuleInit env st =
        (Returned tt,
         after (LoggerError "Failed to get Pinecone index host" e)
           (after (DescribeIndex (pinecone (this st)) (indexName (this st))) st)))
  /\ (forall s, constructor env = Returned s -> indexHost s = EmptyString).
Proof.
  split; [|split; [|split]].
  - intros q st Hset. run. rewrite Hset. split.
    + repeat step; reflexivity.
    + repeat step; tidy; eexists; (split; [reflexivity|]); reflexivity.
  - intros q st Hunset lookup. subst lookup. run. rewrite Hunset.
    split; [|split].
    + repeat step; tidy; eexists; (split; [reflexivity|]); reflexivity.
    + intros d Hd. rewrite Hd. repeat step; reflexivity.
    + intros e He. rewrite He. reflexivity.
  - intros st e He. run. now rewrite He.
  - intros s Hs.
    now destruct (@constructor_returned _ _ Hs) as (g & k & n & _ & _ & _ & _ & _ & ->).
Qed.

(** C8 at a sample: the lookup fails at startup and works at the first
    question. *)
Lemma index_host_memoized_witness :
  onModuleInit Sample.flaky Sample.fresh = (Returned tt, Sample.failed_start)
  /\ this (snd (ask Sample.flaky Sample.question Sample.failed_start))
     = with_indexHost "lurky-1a2b.svc.pinecone.io" Sample.service
  /\ this (snd (ask Sample.flaky Sample.question Sample.resolved))
     = this Sample.resolved.
Proof.
  destruct (index_host_memoized Sample.flaky) as (Hset & Hunset & Hinit & _).
  split; [|split].
  - now rewrite (Hinit Sample.fresh _ eq_refl).
  - destruct (Hunset Sample.question Sample.failed_start eq_refl) as (_ & Hok & _).
    now rewrite (Hok _ eq_refl).
  - now destruct (Hset Sample.question Sample.resolved eq_refl) as (-> & _).
Defined.

(* ===================================================================== *)
(** * The sampling temperature *)
(* ===================================================================== *)

(** C6 on the code. The chain of [translateToEnglish] is made from
    [this.llm], the one model object of the service, which the constructor
    makes with temperature 0.3: the translation request carries 0.3, not 0,
    and so does the answer request. *)
Theorem translation_uses_service_temperature (env : Env) (s : RagService)
    (text : string) (st : State) :
  constructor env = Returned s ->
  llm (this st) = llm s ->
  exists c,
    history (snd (translateToEnglish env text st)) =
    (history st ++ [ChainInvoke c])%list
    /\ chain_template c = template
    /\ temperature (chain_llm c) = (3 # 10)%Q
    /\ Qeq_bool (temperature (chain_llm c)) 0%Q = false
    /\ forall context englishQuestion originalQuestion,
         chain_llm (answer_call (this st) context englishQuestion originalQuestion)
         = chain_llm c.
Proof.
  intros Hctor Hllm. rewrite translateToEnglish_run. cbn zeta.
  exists (translation_call (this st) text).
  assert (Ht : temperature (llm s) = (3 # 10)%Q).
  { now destruct (@constructor_returned _ _ Hctor)
      as (g & k & n & _ & _ & _ & _ & _ & ->). }
  cbn [snd after history translation_call answer_call chain_llm chain_template].
  rewrite Hllm, Ht. repeat split; reflexivity.
Qed.

(** C6 at a sample: the translation request of a service just made. *)
Lemma translation_uses_service_temperature_witness :
  exists c,
    history (snd (translateToEnglish Sample.down Sample.question Sample.resolved)) =
    (history Sample.resolved ++ [ChainInvoke c])%list
    /\ chain_template c = template
    /\ temperature (chain_llm c) = (3 # 10)%Q
    /\ Qeq_bool (temperature (chain_llm c)) 0%Q = false
    /\ forall context englishQuestion originalQuestion,
         chain_llm (answer_call (this Sample.resolved) context englishQuestion
                      originalQuestion)
         = chain_llm c.
Proof.
  exact (@translation_uses_service_temperature Sample.down Sample.service
           Sample.question Sample.resolved eq_refl eq_refl).
Defined.

(** The temperatures of the two requests of one question that is answered. *)
Example sample_temperatures :
  map (fun c => temperature (chain_llm c))
    (invocations
       (history
          (snd (ask (Sample.world Sample.found (Returned Sample.english)
                       (Sample.respond_with
                          (JObj [("result",
                                  JObj [("hits", JArr Sample.three_hits)])])))
                  Sample.question Sample.resolved))))
  = [(3 # 10)%Q; (3 # 10)%Q].
Proof. reflexivity. Qed.

(* ===================================================================== *)
(** * The assembled context *)
(* ===================================================================== *)

(** Step 3 on a non-empty array of hits without [null]: the answer chain is
    invoked on the assembled context, unless a text cannot be printed. *)
Lemma respond_hits (env : Env) (originalQuestion englishQuestion : string)
    (l : list json) (st : State) :
  l <> [] ->
  Forall (fun hit => hit <> JNull) l ->
  respond env originalQuestion englishQuestion (JArr l) st =
  match mapO Context.fragment_text l with
  | Thrown e => (Thrown e, st)
  | Returned texts =>
      let c := answer_call (this st) (String.concat SEPARATOR texts)
                 englishQuestion originalQuestion in
      (match invoke env (history st) c with
       | Returned answer =>
           Returned [("originalQuestion", originalQuestion);
                     ("englishQuestion", englishQuestion);
                     ("answer", answer)]
       | Thrown e => Thrown e
       end, after (ChainInvoke c) st)
  end.
Proof.
  intros Hne Hl. rewrite respond_run.
  destruct l as [|hit l']; [contradiction|].
  cbn [get Js.member Js.is_zero length]. rewrite of_nat_succ_nonzero.
  rewrite (assemble_array Hl).
  destruct (mapO Context.fragment_text (hit :: l')) as [texts|e]; reflexivity.
Qed.

(** C3, as the code has it. For a non-empty array of hits, none of them
    [null], the context is the texts of the hits joined with the separator.
    When every text can be printed there is one text for each hit, in the
    order of the hits, and the joined texts are what the answer chain is
    invoked with. The text of a hit is its [combined_context] when that is
    a non-empty string, and the JSON text of its [fields] when the field
    is missing or falsy (the empty string, for one); a hit without
    [fields] adds the empty text. A [combined_context] that is an object
    with a [toString] of its own cannot be printed: assembling throws, and
    the answer chain is not invoked. *)
Theorem context_joins_fragments (l : list json) :
  l <> [] ->
  Forall (fun hit => hit <> JNull) l ->
  let sep := Str.nl ++ Str.nl ++ "---" ++ Str.nl ++ Str.nl in
  assemble (JArr l) =
    (texts <~ mapO Context.fragment_text l ;;
     Returned (String.concat sep texts))
  /\ (forall texts,
        mapO Context.fragment_text l = Returned texts ->
        length texts = length l
        /\ (forall i hit,
              nth_error l i = Some hit ->
              exists t, nth_error texts i = Some t
                        /\ Context.fragment_text hit = Returned t)
        /\ (forall t1 t2, texts = (t1 ++ t2)%list -> t1 <> [] -> t2 <> [] ->
              String.concat sep texts =
              String.concat sep t1 ++ sep ++ String.concat sep t2)
        /\ (forall env originalQuestion englishQuestion st,
              history (snd (respond env originalQuestion englishQuestion
                              (JArr l) st)) =
              (history st
               ++ [ChainInvoke
                     (answer_call (this st) (String.concat sep texts)
                        englishQuestion originalQuestion)])%list))
  /\ (Forall (fun hit => exists t, Context.fragment_text hit = Returned t) l ->
      exists texts, mapO Context.fragment_text l = Returned texts)
  /\ (forall hit fs t,
        Js.member hit Js.K_fields = Some (JObj fs) ->
        Js.lookup "combined_context" fs = Some (JStr t) ->
        Str.is_empty t = false ->
        Context.fragment_text hit = Returned t)
  /\ (forall hit fs,
        Js.member hit Js.K_fields = Some (JObj fs) ->
        Js.truthy_val (Js.lookup "combined_context" fs) = false ->
        Context.fragment_text hit = Returned (Js.stringify (JObj fs)))
  /\ (forall hit,
        Js.member hit Js.K_fields = None ->
        Context.fragment_text hit = Returned EmptyString)
  /\ (forall hit fs ps v,
        Js.member hit Js.K_fields = Some (JObj fs) ->
        Js.lookup "combined_context" fs = Some (JObj ps) ->
        Js.lookup "toString" ps = Some v ->
        exists e, Context.fragment_text hit = Thrown e)
  /\ (forall e,
        mapO Context.fragment_text l = Thrown e ->
        assemble (JArr l) = Thrown e
        /\ forall env originalQuestion englishQuestion st,
             respond env originalQuestion englishQuestion (JArr l) st =
             (Thrown e, st)).
Proof.
  intros Hne Hl sep.
  change sep with SEPARATOR. clear sep.
  split; [now apply assemble_array|].
  split; [|split; [|split; [|split; [|split; [|split]]]]].
  - intros texts Htexts.
    destruct (mapO_returned _ _ Htexts) as (Hlen & Hnth).
    repeat split.
    + exact Hlen.
    + exact Hnth.
    + intros t1 t2 -> H1 H2. now apply concat_app.
    + intros env q eq st. rewrite (respond_hits env q eq st Hne Hl), Htexts.
      reflexivity.
  - apply mapO_returns.
  - intros hit fs t. apply fragment_text_truthy.
  - intros hit fs. apply fragment_text_dump.
  - intros hit Hf. unfold Context.fragment_text. now rewrite Hf.
  - intros hit fs ps v Hf Hcc Hts. unfold Context.fragment_text. rewrite Hf.
    cbn [Js.opt_member Js.member Js.key_name]. rewrite Hcc.
    cbn [Js.truthy_val Js.truthy Js.join_element Js.to_string]. rewrite Hts.
    eexists; reflexivity.
  - intros e He. split.
    + now rewrite (assemble_array Hl), He.
    + intros env q eq st. now rewrite (respond_hits env q eq st Hne Hl), He.
Qed.

(** C3 at a sample: three hits, three texts, in order. *)
Lemma context_joins_fragments_witness :
  assemble (JArr Sample.three_hits) =
  Returned
    (String.concat SEPARATOR
       ["Red hoodie, sizes S to XL";
        Js.stringify (JObj [("combined_context", JStr EmptyString)]);
        Js.stringify (JObj [("text", JStr "Blue hoodie")])]).
Proof.
  assert (Hne : Sample.three_hits <> []) by discriminate.
  assert (Hl : Forall (fun hit => hit <> JNull) Sample.three_hits)
    by (repeat constructor; discriminate).
  destruct (context_joins_fragments Hne Hl) as (Hctx & _).
  rewrite Hctx. reflexivity.
Defined.

(** C3 as the specification words it fails on a hit whose text is the empty
    string: the code adds the JSON text of the fields of the hit, and the
    text of the hit, which is empty, is what the specification asks for. *)
Lemma context_empty_text_counterexample :
  assemble (JArr Sample.two_hits) =
    Returned ("Red hoodie" ++ SEPARATOR
              ++ Js.stringify (JObj [("combined_context", JStr EmptyString)]))
  /\ Context.context_by_key Sample.two_hits =
     Returned ("Red hoodie" ++ SEPARATOR)
  /\ String.eqb
       ("Red hoodie" ++ SEPARATOR
        ++ Js.stringify (JObj [("combined_context", JStr EmptyString)]))
       ("Red hoodie" ++ SEPARATOR) = false.
Proof. repeat split; reflexivity. Qed.

(** A text that is an object with a [toString] of its own: the context
    cannot be assembled, and the request fails. *)
Example sample_unprintable_text :
  (exists e,
     assemble
       (JArr [Sample.hit [("combined_context", JObj [("toString", JNum "1")])]])
     = Thrown e)
  /\ fst (ask (Sample.world Sample.found (Returned Sample.english)
                 (Sample.respond_with
                    (JObj [("result",
                            JObj [("hits",
                                   JArr [Sample.hit
                                           [("combined_context",
                                             JObj [("toString", JNum "1")])]])])])))
            Sample.question Sample.resolved)
     = Returned [("question", Sample.question);
                 ("answer", SYSTEM_ERROR);
                 ("error", "Cannot convert object to primitive value")].
Proof. split; [eexists|]; reflexivity. Qed.

(** C9. A hit whose [fields] hold a [combined_context] that is falsy (the
    empty string, [0], [false], [null]) is rendered as the JSON text of its
    [fields], which is not the empty string. *)
Theorem falsy_text_is_dumped (hit : json) (fs : list (string * json)) (v : json) :
  get hit Js.K_fields = Returned (Some (JObj fs)) ->
  Js.lookup "combined_context" fs = Some v ->
  Js.truthy v = false ->
  hit_text hit = Returned (Some (JStr (Js.stringify (JObj fs))))
  /\ assemble (JArr [hit]) = Returned (Js.stringify (JObj fs))
  /\ Str.is_empty (Js.stringify (JObj fs)) = false.
Proof.
  intros Hf Hv Hfalsy.
  assert (Hhit : hit_text hit = Returned (Some (JStr (Js.stringify (JObj fs))))).
  { unfold hit_text. rewrite Hf. cbn [bindO Js.opt_member Js.member Js.key_name].
    rewrite Hv. cbn [Js.truthy_val]. rewrite Hfalsy. reflexivity. }
  split; [exact Hhit|]. split; [|reflexivity].
  unfold assemble, Array_map. cbn [mapO]. rewrite Hhit. reflexivity.
Qed.

(** C9 at a sample: the text is the empty string. *)
Lemma falsy_text_is_dumped_witness :
  assemble (JArr [Sample.hit [("combined_context", JStr EmptyString)]]) =
  Returned (Js.stringify (JObj [("combined_context", JStr EmptyString)])).
Proof.
  destruct (@falsy_text_is_dumped
              (Sample.hit [("combined_context", JStr EmptyString)])
              [("combined_context", JStr EmptyString)] (JStr EmptyString)
              eq_refl eq_refl eq_refl) as (_ & Hctx & _).
  exact Hctx.
Defined.

(* ===================================================================== *)
(** * A translation that fails *)
(* ===================================================================== *)

(** C4 as the specification words it fails: with the generation service
    down, [translateToEnglish] does not return the question, it throws. *)
Lemma translation_failure_counterexample :
  invoke Sample.down (history Sample.resolved)
    (translation_call (this Sample.resolved) Sample.question)
  = Thrown (mkError "503 Service Unavailable")
  /\ fst (translateToEnglish Sample.down Sample.question Sample.resolved)
     = Thrown (mkError "503 Service Unavailable")
  /\ returned (fst (translateToEnglish Sample.down Sample.question Sample.resolved))
     = None.
Proof. repeat split; reflexivity. Qed.

(** C4, as the code has it. When the chain invocation of
    [translateToEnglish] throws, [translateToEnglish] throws the same error
    and returns nothing; [ask], whose [try] block it runs in, then returns
    the degraded result with the message of that error. *)
Theorem translation_failure_propagates (env : Env) (text : string)
    (st : State) (e : Error) :
  invoke env (history st) (translation_call (this st) text) = Thrown e ->
  translateToEnglish env text st =
    (Thrown e, after (ChainInvoke (translation_call (this st) text)) st)
  /\ forall st0,
       resolveIndexHost env st0 = (Returned tt, st) ->
       fst (ask env text st0) =
       Returned [("question", text);
                 ("answer", "系统繁忙，请稍后再试 (System Error).");
                 ("error", message e)].
Proof.
  intros He.
  assert (Ht : translateToEnglish env text st =
               (Thrown e, after (ChainInvoke (translation_call (this st) text)) st)).
  { rewrite translateToEnglish_run. cbn zeta. now rewrite He. }
  split; [exact Ht|].
  intros st0 Hres. rewrite ask_run, ask_try_run.
  unfold prepare. unfold bind at 1. rewrite Hres.
  unfold bind at 1. rewrite Ht. reflexivity.
Qed.

(** C4 at a sample: the generation service is down. *)
Lemma translation_failure_propagates_witness :
  fst (ask Sample.down Sample.question Sample.resolved) =
  Returned [("question", Sample.question);
            ("answer", SYSTEM_ERROR);
            ("error", "503 Service Unavailable")].
Proof.
  destruct (@translation_failure_propagates Sample.down Sample.question
              Sample.resolved (mkError "503 Service Unavailable") eq_refl)
    as (_ & Hask).
  exact (Hask Sample.resolved eq_refl).
Defined.

(* ===================================================================== *)
(** * The shape of the result *)
(* ===================================================================== *)

(** C5 as the specification words it fails on the failure path: the result
    has the question, the answer and the error, and no translated query
    under any key. *)
Lemma result_shape_counterexample :
  fst (ask Sample.down Sample.question Sample.resolved) =
    Returned [("question", Sample.question);
              ("answer", SYSTEM_ERROR);
              ("error", "503 Service Unavailable")]
  /\ prop "englishQuestion"
       [("question", Sample.question);
        ("answer", SYSTEM_ERROR);
        ("error", "503 Service Unavailable")] = None
  /\ prop "canonicalQuery"
       [("question", Sample.question);
        ("answer", SYSTEM_ERROR);
        ("error", "503 Service Unavailable")] = None.
Proof. repeat split; reflexivity. Qed.

(** C5, as the code has it. The result of [ask] always carries the original
    question and an answer. When the [try] block returns (an answer from
    the hits, or the fixed answer of the empty retrieval) the result has no
    [error] and carries the translated query; when the [try] block throws
    [e], the result has [error] set to the message of [e] and the fixed
    degraded answer, and it has no translated query. *)
Theorem ask_result_shape (env : Env) (originalQuestion : string) (st : State) :
  exists r st',
    ask env originalQuestion st = (Returned r, st')
    /\ question_of r = Some originalQuestion
    /\ (exists a, prop "answer" r = Some a)
    /\ match fst (ask_try env originalQuestion st) with
       | Returned _ =>
           prop "error" r = None
           /\ exists englishQuestion,
                fst (prepare env originalQuestion st) = Returned englishQuestion
                /\ prop "englishQuestion" r = Some englishQuestion
       | Thrown e =>
           prop "error" r = Some (message e)
           /\ prop "answer" r = Some "系统繁忙，请稍后再试 (System Error)."
           /\ prop "englishQuestion" r = None
       end.
Proof.
  rewrite ask_run.
  destruct (ask_try env originalQuestion st) as [[r|e] st'] eqn:Htry.
  - exists r, st'. split; [reflexivity|].
    destruct (ask_try_returned _ _ _ Htry) as (eq & st0 & Hprep & Hr).
    cbn [fst]. rewrite Hprep. cbn [fst].
    destruct Hr as [-> | (a & ->)].
    + repeat split; try reflexivity; eexists; try split; reflexivity.
    + repeat split; try reflexivity; eexists; try split; reflexivity.
  - eexists _, _. split; [reflexivity|]. cbn [fst].
    repeat split; eexists; reflexivity.
Qed.

(** The three results of [ask]: an answer, nothing found, a failure. *)
Example sample_results :
  fst (ask (Sample.world Sample.found (Returned Sample.english)
              (Sample.respond_with
                 (JObj [("result", JObj [("hits", JArr Sample.three_hits)])])))
         Sample.question Sample.fresh)
  = Returned [("originalQuestion", Sample.question);
              ("englishQuestion", Sample.english);
              ("answer", "有红色和蓝色两种。")]
  /\ fst (ask Sample.flaky Sample.question Sample.fresh)
     = Returned [("question", Sample.question);
                 ("answer", SYSTEM_ERROR);
                 ("error", "getaddrinfo ENOTFOUND api.pinecone.io")]
  /\ fst (ask Sample.flaky Sample.question Sample.failed_start)
     = Returned [("question", Sample.question);
                 ("englishQuestion", Sample.english);
                 ("answer", NO_INFORMATION)].
Proof. repeat split; reflexivity. Qed.

(* ===================================================================== *)
(** * The constructor and the start of the module *)
(* ===================================================================== *)

Lemma getOrThrow_returned (env : Env) (key v : string) :
  getOrThrow env key = Returned v <-> config env key = Some v.
Proof.
  unfold getOrThrow. destruct (config env key) as [w|]; split; intros H;
    try discriminate; now injection H as ->.
Qed.

Lemma getOrThrow_missing (env : Env) (key : string) :
  config env key = None -> exists e, getOrThrow env key = Thrown e.
Proof. unfold getOrThrow. intros ->. eexists; reflexivity. Qed.

(** X1. The constructor returns exactly when the three keys it reads are
    configured and the two API keys are not empty. The service it returns
    has the model [gemini-2.5-flash] at temperature 0.3, the configured
    keys and index name, and no index host. With any of the three keys
    missing, or with an API key that is the empty string, it throws. *)
Theorem constructor_configured (env : Env) :
  (forall google key name,
      config env "GOOGLE_API_KEY" = Some google ->
      config env "PINECONE_API_KEY" = Some key ->
      config env "PINECONE_INDEX" = Some name ->
      Str.is_empty google = false ->
      Str.is_empty key = false ->
      constructor env =
      Returned {| llm := {| model := "gemini-2.5-flash";
                            temperature := (3 # 10)%Q;
                            apiKey := google |};
                  pinecone := {| pinecone_apiKey := key |};
                  indexName := name;
                  indexHost := EmptyString |})
  /\ (forall s,
        constructor env = Returned s ->
        config env "GOOGLE_API_KEY" = Some (apiKey (llm s))
        /\ config env "PINECONE_API_KEY" = Some (pinecone_apiKey (pinecone s))
        /\ config env "PINECONE_INDEX" = Some (indexName s)
        /\ Str.is_empty (apiKey (llm s)) = false
        /\ Str.is_empty (pinecone_apiKey (pinecone s)) = false)
  /\ (forall key,
        In key ["GOOGLE_API_KEY"; "PINECONE_API_KEY"; "PINECONE_INDEX"] ->
        config env key = None ->
        exists e, constructor env = Thrown e)
  /\ (forall key,
        In key ["GOOGLE_API_KEY"; "PINECONE_API_KEY"] ->
        config env key = Some EmptyString ->
        exists e, constructor env = Thrown e).
Proof.
  split; [|split; [|split]].
  - intros google key name Hg Hk Hn Hge Hke.
    unfold constructor, new_ChatGoogleGenerativeAI, new_Pinecone.
    apply getOrThrow_returned in Hg, Hk, Hn.
    rewrite Hg. cbn [bindO apiKey]. rewrite Hge. cbn [bindO].
    rewrite Hk. cbn [bindO pinecone_apiKey]. rewrite Hke. cbn [bindO].
    now rewrite Hn.
  - intros s Hs.
    destruct (@constructor_returned _ _ Hs)
      as (g & k & n & Hg & Hk & Hn & Hge & Hke & ->).
    cbn. rewrite <- !getOrThrow_returned. repeat split; assumption.
  - intros key Hin Hnone.
    destruct (constructor env) as [s|e] eqn:Hs; [|now exists e].
    destruct (@constructor_returned _ _ Hs)
      as (g & k & n & Hg & Hk & Hn & _).
    apply getOrThrow_returned in Hg, Hk, Hn.
    destruct Hin as [<- | [<- | [<- | []]]]; congruence.
  - intros key Hin Hempty.
    destruct (constructor env) as [s|e] eqn:Hs; [|now exists e].
    destruct (@constructor_returned _ _ Hs)
      as (g & k & n & Hg & Hk & _ & Hge & Hke & _).
    apply getOrThrow_returned in Hg, Hk.
    destruct Hin as [<- | [<- | []]].
    + rewrite Hempty in Hg. injection Hg as <-. discriminate.
    + rewrite Hempty in Hk. injection Hk as <-. discriminate.
Qed.

(** X1 at a sample: the sample settings make the sample service; settings
    without the index name, or with an empty Google key, make none. *)
Lemma constructor_configured_witness :
  constructor Sample.down = Returned Sample.service
  /\ (exists e,
        constructor
          {| config := fun key =>
               if String.eqb key "PINECONE_INDEX" then None
               else Sample.settings key;
             describeIndex := describeIndex Sample.down;
             invoke := invoke Sample.down;
             fetch := fetch Sample.down |}
        = Thrown e)
  /\ (exists e,
        constructor
          {| config := fun key =>
               if String.eqb key "GOOGLE_API_KEY" then Some EmptyString
               else Sample.settings key;
             describeIndex := describeIndex Sample.down;
             invoke := invoke Sample.down;
             fetch := fetch Sample.down |}
        = Thrown e).
Proof.
  split; [|split].
  - destruct (constructor_configured Sample.down) as (Hok & _).
    exact (Hok "google-key" "pinecone-key" "lurky"
             eq_refl eq_refl eq_refl eq_refl eq_refl).
  - match goal with |- exists e, constructor ?env = _ =>
      destruct (constructor_configured env) as (_ & _ & Hmiss & _);
      exact (Hmiss "PINECONE_INDEX" (or_intror (or_intror (or_introl eq_refl)))
               eq_refl)
    end.
  - match goal with |- exists e, constructor ?env = _ =>
      destruct (constructor_configured env) as (_ & _ & _ & Hempty);
      exact (Hempty "GOOGLE_API_KEY" (or_introl eq_refl) eq_refl)
    end.
Defined.

(** X2. [onModuleInit] never throws and looks the host up once, whatever
    the host was. When the lookup answers, its host becomes the index host
    and is logged; when it throws, the error is logged and the service
    object stays as it was. The model, the client and the index name stay
    as they were in both cases. *)
Theorem onModuleInit_never_throws (env : Env) (st : State) :
  exists st',
    onModuleInit env st = (Returned tt, st')
    /\ llm (this st') = llm (this st)
    /\ pinecone (this st') = pinecone (this st)
    /\ indexName (this st') = indexName (this st)
    /\ match describeIndex env (history st) (pinecone (this st))
               (indexName (this st)) with
       | Returned d =>
           indexHost (this st') = host d
           /\ history st' =
              (history st
               ++ [DescribeIndex (pinecone (this st)) (indexName (this st));
                   LoggerLog ("Pinecone Index Host found: " ++ host d)])%list
       | Thrown e =>
           this st' = this st
           /\ history st' =
              (history st
               ++ [DescribeIndex (pinecone (this st)) (indexName (this st));
                   LoggerError "Failed to get Pinecone index host" e])%list
       end.
Proof.
  run. step; tidy; eexists; repeat split; reflexivity.
Qed.

(* ===================================================================== *)
(** * The translated query is trimmed *)
(* ===================================================================== *)

Lemma length_append (a b : string) :
  String.length (a ++ b) = (String.length a + String.length b)%nat.
Proof. induction a as [|c a IH]; cbn; [reflexivity | now rewrite IH]. Qed.

Lemma rev_append_spec (s acc : string) :
  Str.rev_append s acc = Str.rev s ++ acc.
Proof.
  unfold Str.rev. revert acc. induction s as [|c s IH]; intros acc; [reflexivity|].
  cbn [Str.rev_append]. rewrite IH, (IH (String c EmptyString)).
  now rewrite append_assoc.
Qed.

Lemma rev_app (a b : string) : Str.rev (a ++ b) = Str.rev b ++ Str.rev a.
Proof.
  induction a as [|c a IH].
  - cbn. now rewrite append_nil_r.
  - unfold Str.rev in *. cbn [append Str.rev_append].
    rewrite !(rev_append_spec _ (String c EmptyString)).
    unfold Str.rev. rewrite IH. now rewrite append_assoc.
Qed.

Lemma rev_involutive (s : string) : Str.rev (Str.rev s) = s.
Proof.
  induction s as [|c s IH]; [reflexivity|].
  unfold Str.rev in *. cbn [Str.rev_append].
  rewrite (rev_append_spec s). fold (Str.rev (Str.rev s ++ String c EmptyString)).
  rewrite rev_app. unfold Str.rev at 1. cbn [Str.rev_append append].
  unfold Str.rev. now rewrite IH.
Qed.

(** One round of [strip]: nothing to remove, or a character is removed
    and the rest is stripped. *)
Lemma strip_cases (fwd : bool) (s : string) :
  (starts_ws fwd s = false /\ Str.strip fwd s = s)
  \/ (starts_ws fwd s = true
      /\ exists w s', s = w ++ s'
                      /\ blank fwd w
                      /\ (String.length s' < String.length s)%nat
                      /\ Str.strip fwd s = Str.strip fwd s').
Proof.
  destruct s as [|c1 s1]; [left; split; reflexivity|].
  cbn [Str.strip starts_ws].
  destruct (Str.ws1 (nat_of_ascii c1)) eqn:H1.
  { right. split; [reflexivity|].
    exists (String c1 EmptyString), s1. cbn [append String.length].
    repeat split; [|lia]. apply blank_1; [exact H1 | constructor]. }
  destruct s1 as [|c2 s2]; [left; split; reflexivity|].
  destruct (if fwd then Str.ws2 (nat_of_ascii c1) (nat_of_ascii c2)
            else Str.ws2 (nat_of_ascii c2) (nat_of_ascii c1)) eqn:H2.
  { right. split; [reflexivity|].
    exists (String c1 (String c2 EmptyString)), s2. cbn [append String.length].
    repeat split; [|lia]. apply blank_2; [exact H2 | constructor]. }
  destruct s2 as [|c3 s3]; [left; split; reflexivity|].
  destruct (if fwd
            then Str.ws3 (nat_of_ascii c1) (nat_of_ascii c2) (nat_of_ascii c3)
            else Str.ws3 (nat_of_ascii c3) (nat_of_ascii c2) (nat_of_ascii c1))
    eqn:H3.
  { right. split; [reflexivity|].
    exists (String c1 (String c2 (String c3 EmptyString))), s3.
    cbn [append String.length].
    repeat split; [|lia]. apply blank_3; [exact H3 | constructor]. }
  left; split; reflexivity.
Qed.

Lemma blank_app (fwd : bool) (a b : string) :
  blank fwd a -> blank fwd b -> blank fwd (a ++ b).
Proof.
  intros Ha Hb. induction Ha; cbn [append];
    [exact Hb | now apply blank_1 | now apply blank_2 | now apply blank_3].
Qed.

Lemma rev_cons (c : ascii) (s : string) :
  Str.rev (String c s) = Str.rev s ++ String c EmptyString.
Proof. unfold Str.rev at 1. cbn [Str.rev_append]. apply rev_append_spec. Qed.

(** White space read backwards is white space. *)
Lemma blank_rev (w : string) : blank false w -> white (Str.rev w).
Proof.
  unfold white. induction 1 as [|c1 s H1 _ IH|c1 c2 s H2 _ IH|c1 c2 c3 s H3 _ IH].
  - constructor.
  - rewrite rev_cons. apply blank_app; [exact IH|].
    apply blank_1; [exact H1 | constructor].
  - rewrite !rev_cons, append_assoc. apply blank_app; [exact IH|].
    cbn [append]. apply blank_2; [exact H2 | constructor].
  - rewrite !rev_cons, !append_assoc. apply blank_app; [exact IH|].
    cbn [append]. apply blank_3; [exact H3 | constructor].
Qed.

(** What [strip] leaves does not start with white space, and is what it
    was given without the white space that came first. *)
Lemma strip_spec (fwd : bool) (s : string) :
  starts_ws fwd (Str.strip fwd s) = false
  /\ exists w, s = w ++ Str.strip fwd s /\ blank fwd w.
Proof.
  remember (String.length s) as n eqn:Hn.
  revert s Hn. induction n as [n IH] using lt_wf_ind. intros s ->.
  destruct (strip_cases fwd s)
    as [(Hs & ->) | (_ & w & s' & -> & Hw & Hlt & ->)].
  - split; [exact Hs|]. exists EmptyString. split; [reflexivity | constructor].
  - destruct (IH _ Hlt s' eq_refl) as (Hclean & w' & Hw' & Hblank).
    split; [exact Hclean|].
    exists (w ++ w'). split.
    + rewrite append_assoc. now rewrite <- Hw'.
    + now apply blank_app.
Qed.

(** A string that starts with white space still does with more after it. *)
Lemma starts_ws_app (fwd : bool) (u v : string) :
  starts_ws fwd (u ++ v) = false -> starts_ws fwd u = false.
Proof.
  destruct u as [|c1 [|c2 [|c3 u]]]; cbn [append starts_ws]; try reflexivity.
  - destruct (Str.ws1 (nat_of_ascii c1)); cbn [orb]; [|reflexivity].
    intros H; exact H.
  - destruct (Str.ws1 (nat_of_ascii c1)); cbn [orb]; [intros H; exact H|].
    destruct v as [|c3 v]; [intros H; exact H|].
    destruct (if fwd then Str.ws2 _ _ else Str.ws2 _ _); cbn [orb];
      [intros H; exact H | reflexivity].
  - intros H; exact H.
Qed.

(** [trim] takes the white space off the two ends, and nothing else. *)
Lemma trim_spec (s : string) :
  (exists before rest,
     s = before ++ Str.trim s ++ rest /\ white before /\ white rest)
  /\ starts_ws true (Str.trim s) = false
  /\ ends_ws (Str.trim s) = false
  /\ (starts_ws true s = false -> ends_ws s = false -> Str.trim s = s).
Proof.
  unfold Str.trim, ends_ws.
  destruct (strip_spec true s) as (Hclean & before & Hs & Hbefore).
  destruct (strip_spec false (Str.rev (Str.strip true s)))
    as (Hclean' & w & Hw & Hblank).
  assert (Ht : Str.strip true s =
               Str.rev (Str.strip false (Str.rev (Str.strip true s)))
               ++ Str.rev w).
  { apply (f_equal Str.rev) in Hw. now rewrite rev_involutive, rev_app in Hw. }
  split; [|split; [|split]].
  - exists before, (Str.rev w). split; [|split].
    + now rewrite <- Ht.
    + exact Hbefore.
    + now apply blank_rev.
  - rewrite Ht in Hclean. now apply starts_ws_app in Hclean.
  - now rewrite rev_involutive.
  - intros H1 H2.
    destruct (strip_cases true s) as [(_ & ->) | (H & _)]; [|congruence].
    destruct (strip_cases false (Str.rev s)) as [(_ & ->) | (H & _)]; [|congruence].
    apply rev_involutive.
Qed.

(** X3. When its chain answers, [translateToEnglish] returns the answer
    without the white space at its two ends: the answer is white space,
    then what is returned, then white space; what is returned neither
    starts nor ends with a white space character; and an answer that has
    none at its ends is returned as it is. The chain is invoked once, with
    the translation template and the text. *)
Theorem translateToEnglish_trimmed (env : Env) (text res : string) (st : State) :
  invoke env (history st) (translation_call (this st) text) = Returned res ->
  exists q before rest,
    translateToEnglish env text st =
      (Returned q, after (ChainInvoke (translation_call (this st) text)) st)
    /\ res = before ++ q ++ rest
    /\ white before
    /\ white rest
    /\ starts_ws true q = false
    /\ ends_ws q = false
    /\ (starts_ws true res = false -> ends_ws res = false -> q = res).
Proof.
  intros Hres.
  destruct (trim_spec res) as ((before & rest & Hdec & Hb & Hr) & Hs & He & Hid).
  exists (Str.trim res), before, rest.
  rewrite translateToEnglish_run. cbn zeta. rewrite Hres.
  repeat split; assumption.
Qed.

(** X3 at a sample: an answer with a space before and a line feed after. *)
Lemma translateToEnglish_trimmed_witness :
  exists q before rest,
    translateToEnglish
      (Sample.world Sample.found (Returned (" " ++ Sample.english ++ Str.nl))
         Sample.unavailable)
      Sample.question Sample.resolved =
      (Returned q,
       after (ChainInvoke (translation_call (this Sample.resolved) Sample.question))
         Sample.resolved)
    /\ " " ++ Sample.english ++ Str.nl = before ++ q ++ rest
    /\ white before
    /\ white rest
    /\ starts_ws true q = false
    /\ ends_ws q = false
    /\ (starts_ws true (" " ++ Sample.english ++ Str.nl) = false ->
        ends_ws (" " ++ Sample.english ++ Str.nl) = false ->
        q = " " ++ Sample.english ++ Str.nl).
Proof.
  exact (@translateToEnglish_trimmed
           (Sample.world Sample.found
              (Returned (" " ++ Sample.english ++ Str.nl))
              Sample.unavailable)
           Sample.question (" " ++ Sample.english ++ Str.nl)
           Sample.resolved eq_refl).
Defined.

(** The same sample, run. *)
Example sample_translation_trimmed :
  fst (translateToEnglish
         (Sample.world Sample.found
            (Returned (" " ++ Sample.english ++ Str.nl))
            Sample.unavailable)
         Sample.question Sample.resolved)
  = Returned Sample.english.
Proof. reflexivity. Qed.

(* ===================================================================== *)
(** * The query can be read back from the request *)
(* ===================================================================== *)

(** Reading one character that [Js.quote] wrote. *)
Lemma unquote_quote_char (c : ascii) (rest : string) :
  Body.unquote_until (Js.quote_char c ++ rest) =
  option_map (String c) (Body.unquote_until rest).
Proof.
  destruct c as [[] [] [] [] [] [] [] []]; reflexivity.
Qed.

Lemma unquote_quote_body (s rest : string) :
  Body.unquote_until (Js.quote_body s ++ Str.dq ++ rest) = Some s.
Proof.
  induction s as [|c s IH]; [reflexivity|].
  cbn [Js.quote_body]. rewrite append_assoc, unquote_quote_char, IH.
  reflexivity.
Qed.

(** The body of a search request, spelled out. *)
Lemma search_body_text (key englishQuestion : string) :
  body (search_init key englishQuestion) =
  Body.before_query ++ Js.quote_body englishQuestion ++ Str.dq ++ Body.after_query.
Proof.
  unfold search_init, body, search_body, Body.before_query, Body.after_query.
  cbn [Js.stringify map String.concat fst snd]. unfold Js.quote.
  rewrite !append_assoc. vm_compute. reflexivity.
Qed.

Lemma prefix_append (a b : string) : String.prefix a (a ++ b) = true.
Proof.
  induction a as [|c a IH]; [destruct b; reflexivity|].
  cbn. destruct (ascii_dec c c); [exact IH | contradiction].
Qed.

Lemma drop_append (a b : string) : Body.drop (String.length a) (a ++ b) = b.
Proof. induction a as [|c a IH]; [reflexivity | exact IH]. Qed.

(** X4. The body of a search request can be read back: whatever the query
    holds (quotes, backslashes, control characters, text outside ASCII),
    the text of [query.inputs.text] in the body is the query; so two
    queries that differ give two bodies that differ. *)
Theorem search_body_round_trip (key englishQuestion : string) :
  Body.query_of (body (search_init key englishQuestion)) = Some englishQuestion
  /\ forall key' other,
       body (search_init key englishQuestion) = body (search_init key' other) ->
       englishQuestion = other.
Proof.
  assert (Hread : forall k q, Body.query_of (body (search_init k q)) = Some q).
  { intros k q. rewrite search_body_text. unfold Body.query_of.
    rewrite prefix_append, drop_append. apply unquote_quote_body. }
  split; [apply Hread|].
  intros key' other Heq.
  pose proof (Hread key englishQuestion) as H1.
  rewrite Heq, Hread in H1. now injection H1.
Qed.

(** A query with a quote, a backslash and a line feed in it, read back. *)
Example sample_body_round_trip :
  Body.query_of
    (body (search_init "pinecone-key"
             ("5" ++ Str.dq ++ " x 7" ++ Str.dq ++ " \ print" ++ Str.nl ++ "连帽衫")))
  = Some ("5" ++ Str.dq ++ " x 7" ++ Str.dq ++ " \ print" ++ Str.nl ++ "连帽衫").
Proof. reflexivity. Qed.

(* ===================================================================== *)
(** * The answer, and hits that cannot be read *)
(* ===================================================================== *)



(** The callback throws at the first [null] among the hits. *)
Lemma map_hit_text_null (l : list json) :
  In JNull l -> exists e, mapO hit_text l = Thrown e.
Proof.
  induction l as [|hit l IH]; [contradiction|].
  intros [-> | Hin].
  - eexists; reflexivity.
  - cbn [mapO]. destruct (hit_text hit) as [v|e]; [|eexists; reflexivity].
    destruct (IH Hin) as (e & ->). eexists; reflexivity.
Qed.

(** Hits with a [null] among them, or hits that are no array and whose
    [length] is not [0], cannot be assembled. *)
Lemma respond_unreadable (env : Env) (originalQuestion englishQuestion : string)
    (hits : json) (st : State) :
  (exists l, hits = JArr l /\ In JNull l)
  \/ ((forall l, hits <> JArr l)
      /\ Js.is_zero (Js.member hits Js.K_length) = false) ->
  exists e,
    respond env originalQuestion englishQuestion hits st = (Thrown e, st).
Proof.
  intros [(l & -> & Hin) | (Hna & Hz)]; rewrite respond_run.
  - destruct l as [|hit l']; [contradiction|].
    cbn [get Js.member Js.is_zero length]. rewrite of_nat_succ_nonzero.
    unfold assemble, Array_map.
    destruct (map_hit_text_null _ Hin) as (e & ->). eexists; reflexivity.
  - destruct hits as [| b | r | s | l | ps];
      try (eexists; reflexivity);
      cbn [get]; rewrite Hz;
      try (eexists; reflexivity).
    now destruct (Hna l).
Qed.

(** X6. Hits that cannot be read fail the request before the answer chain
    is invoked: when the search returns an array with a [null] in it, or a
    value that is no array and whose [length] is not [0] (a number, a
    string, an object), [ask] logs the error and returns the degraded
    result, and the error log is the one call it makes after the search. *)
Theorem unreadable_hits_degrade (env : Env) (originalQuestion englishQuestion
    : string) (st st0 st1 : State) (hits : json) :
  prepare env originalQuestion st = (Returned englishQuestion, st0) ->
  search env englishQuestion st0 = (Returned hits, st1) ->
  (exists l, hits = JArr l /\ In JNull l)
  \/ ((forall l, hits <> JArr l)
      /\ Js.is_zero (Js.member hits Js.K_length) = false) ->
  exists e,
    ask env originalQuestion st =
    (Returned [("question", originalQuestion);
               ("answer", SYSTEM_ERROR);
               ("error", message e)],
     after (LoggerError "RAG Process Error:" e) st1).
Proof.
  intros Hprep Hsearch Hbad.
  destruct (respond_unreadable env originalQuestion englishQuestion st1 Hbad)
    as (e & He).
  exists e. now rewrite ask_run, ask_try_run, Hprep, Hsearch, He.
Qed.

(** X6 at a sample: the second hit is [null]. *)
Lemma unreadable_hits_degrade_witness :
  exists e,
    ask (Sample.world Sample.found (Returned Sample.english)
           (Sample.respond_with
              (JObj [("result",
                      JObj [("hits", JArr [Sample.hit []; JNull])])])))
      Sample.question Sample.resolved =
    (Returned [("question", Sample.question);
               ("answer", SYSTEM_ERROR);
               ("error", message e)],
     after (LoggerError "RAG Process Error:" e)
       (snd (search
               (Sample.world Sample.found (Returned Sample.english)
                  (Sample.respond_with
                     (JObj [("result",
                             JObj [("hits", JArr [Sample.hit []; JNull])])])))
               Sample.english
               (snd (prepare
                       (Sample.world Sample.found (Returned Sample.english)
                          (Sample.respond_with
                             (JObj [("result",
                                     JObj [("hits",
                                            JArr [Sample.hit []; JNull])])])))
                       Sample.question Sample.resolved))))).
Proof.
  refine (@unreadable_hits_degrade
            (Sample.world Sample.found (Returned Sample.english)
               (Sample.respond_with
                  (JObj [("result",
                          JObj [("hits", JArr [Sample.hit []; JNull])])])))
            Sample.question Sample.english
            Sample.resolved _ _ (JArr [Sample.hit []; JNull])
            eq_refl eq_refl _).
  left. exists [Sample.hit []; JNull]. split; [reflexivity|].
  right; left; reflexivity.
Defined.

(** X7. A response that is a success and whose body is [null] fails the
    request: reading [result] of it throws, [ask] logs the error and
    returns the degraded result, not the answer of the empty retrieval. *)
Theorem null_body_degrades (env : Env) (originalQuestion englishQuestion
    key : string) (st st0 : State) (response : Response) :
  prepare env originalQuestion st = (Returned englishQuestion, st0) ->
  getOrThrow env "PINECONE_API_KEY" = Returned key ->
  fetch env (history st0) (search_url (indexHost (this st0)))
    (search_init key englishQuestion) = Returned response ->
  ok response = true ->
  json_body response = Returned JNull ->
  exists e,
    ask env originalQuestion st =
    (Returned [("question", originalQuestion);
               ("answer", SYSTEM_ERROR);
               ("error", message e)],
     after (LoggerError "RAG Process Error:" e)
       (after (Fetch (search_url (indexHost (this st0)))
                 (search_init key englishQuestion)) st0)).
Proof.
  intros Hprep Hkey Hfetch Hok Hjson.
  eexists. rewrite ask_run, ask_try_run, Hprep, search_run, Hkey. cbn zeta.
  rewrite Hfetch, Hok, Hjson. reflexivity.
Qed.

(** X7 at a sample: the body of the response is [null]. *)
Lemma null_body_degrades_witness :
  exists e,
    ask (Sample.world Sample.found (Returned Sample.english)
           (Sample.respond_with JNull))
      Sample.question Sample.resolved =
    (Returned [("question", Sample.question);
               ("answer", SYSTEM_ERROR);
               ("error", message e)],
     after (LoggerError "RAG Process Error:" e)
       (after (Fetch (search_url (indexHost (this Sample.resolved)))
                 (search_init "pinecone-key" Sample.english))
          (snd (prepare
                  (Sample.world Sample.found (Returned Sample.english)
                     (Sample.respond_with JNull))
                  Sample.question Sample.resolved)))).
Proof.
  exact (@null_body_degrades
           (Sample.world Sample.found (Returned Sample.english)
              (Sample.respond_with JNull))
           Sample.question Sample.english "pinecone-key" Sample.resolved _ _
           eq_refl eq_refl eq_refl eq_refl eq_refl).
Defined.

(* ===================================================================== *)
(** * The calls of one request *)
(* ===================================================================== *)

(** X8. [ask] never repeats a call. The calls it makes to the index and to
    the generation service are the first ones, at least one, of: the
    lookup of the host (only with the host unset), the translation, the
    search, the answer; each at most once and in this order. *)
Theorem ask_call_order (env : Env) (originalQuestion : string) (st : State) :
  exists new n,
    history (snd (ask env originalQuestion st)) = (history st ++ new)%list
    /\ (1 <= n)%nat
    /\ calls new =
       firstn n
         (if Str.is_empty (indexHost (this st))
          then [Lookup; Translation; Search; Answer]
          else [Translation; Search; Answer]).
Proof.
  run. repeat step; tidy.
  all: eexists; cbn [calls call_kind chain_template].
  all: rewrite ?String.eqb_refl, ?(proj1 (String.eqb_neq _ _)
         (fun H => proj1 (String.eqb_neq _ _) templates_differ (eq_sym H))).
  all: first [ exists 1; split; [reflexivity | split; [lia | reflexivity]]
             | exists 2; split; [reflexivity | split; [lia | reflexivity]]
             | exists 3; split; [reflexivity | split; [lia | reflexivity]]
             | exists 4; split; [reflexivity | split; [lia | reflexivity]] ].
Qed.

(** X9. A failure is logged once, as the last call: when the [try] block
    throws [e], the one error [ask] logs is [e], under ["RAG Process
    Error:"], and nothing is called after it; when the [try] block returns,
    [ask] logs no error. *)
Theorem ask_logs_failure_once (env : Env) (originalQuestion : string) (st : State) :
  exists new,
    history (snd (ask env originalQuestion st)) = (history st ++ new)%list
    /\ match fst (ask_try env originalQuestion st) with
       | Thrown e =>
           logged_errors new = [("RAG Process Error:", e)]
           /\ exists before,
                new = (before ++ [LoggerError "RAG Process Error:" e])%list
       | Returned _ => logged_errors new = []
       end.
Proof.
  run. repeat step; tidy.
  all: eexists; (split; [reflexivity|]); cbn [logged_errors].
  all: try reflexivity.
  all: split; [reflexivity|].
  all: first [ exists []; reflexivity
             | eexists [_]; reflexivity
             | eexists [_; _]; reflexivity
             | eexists [_; _; _]; reflexivity
             | eexists [_; _; _; _]; reflexivity
             | eexists [_; _; _; _; _]; reflexivity
             | eexists [_; _; _; _; _; _]; reflexivity ].
Qed.

(** The search requests of one run of [ask]: one, made of the state and
    the query step 1 returns and of the configured key, when step 1
    returns and the key is configured; none otherwise. *)
Lemma ask_fetches (env : Env) (originalQuestion : string) (st : State) :
  exists new,
    history (snd (ask env originalQuestion st)) = (history st ++ new)%list
    /\ fetches new =
       match prepare env originalQuestion st with
       | (Returned englishQuestion, st0) =>
           match getOrThrow env "PINECONE_API_KEY" with
           | Returned key =>
               [(search_url (indexHost (this st0)),
                 search_init key englishQuestion)]
           | Thrown _ => []
           end
       | (Thrown _, _) => []
       end.
Proof.
  run. repeat step; tidy.
  all: eexists; (split; [reflexivity|]); reflexivity.
Qed.

(** What step 1 returns is the trimmed answer of the translation chain. *)
Lemma prepare_returned (env : Env) (originalQuestion englishQuestion : string)
    (st st0 : State) :
  prepare env originalQuestion st = (Returned englishQuestion, st0) ->
  exists h res,
    invoke env h (translation_call (this st) originalQuestion) = Returned res
    /\ englishQuestion = Str.trim res.
Proof.
  run. unfold translation_call. repeat step; tidy; intros [= <- <-].
  all: eexists _, _; split; [eassumption | reflexivity].
Qed.

(** X10. The search asks for the translation, not for the question: the
    query in the body of every search request of [ask] is the trimmed
    answer of the translation chain to the original question. *)
Theorem search_carries_translation (env : Env) (originalQuestion : string)
    (st : State) :
  exists new,
    history (snd (ask env originalQuestion st)) = (history st ++ new)%list
    /\ Forall
         (fun request : string * RequestInit =>
            exists h res,
              invoke env h (translation_call (this st) originalQuestion)
              = Returned res
              /\ Body.query_of (body (snd request)) = Some (Str.trim res))
         (fetches new).
Proof.
  destruct (ask_fetches env originalQuestion st) as (new & Hnew & Hf).
  exists new. split; [exact Hnew|]. rewrite Hf.
  destruct (prepare env originalQuestion st) as [[eq|e] st0] eqn:Hprep;
    [|constructor].
  destruct (getOrThrow env "PINECONE_API_KEY") as [key|e]; [|constructor].
  constructor; [|constructor].
  destruct (prepare_returned _ _ _ Hprep) as (h & res & Hres & ->).
  exists h, res. split; [exact Hres|]. cbn [snd].
  rewrite search_body_text. unfold Body.query_of.
  rewrite prefix_append, drop_append. apply unquote_quote_body.
Qed.

(** X11. Every search request of [ask] is a [POST] with the configured
    [PINECONE_API_KEY], read at the time of the request, as its [Api-Key]
    header, with a JSON content type and the API version [2024-10]. With
    the key not configured, [ask] makes no search request and returns the
    degraded result. *)
Theorem search_request_authenticated (env : Env) (originalQuestion : string)
    (st : State) :
  exists new,
    history (snd (ask env originalQuestion st)) = (history st ++ new)%list
    /\ Forall
         (fun request : string * RequestInit =>
            method (snd request) = "POST"
            /\ exists key,
                 config env "PINECONE_API_KEY" = Some key
                 /\ headers (snd request) =
                    [("Api-Key", key);
                     ("Content-Type", "application/json");
                     ("X-Pinecone-API-Version", "2024-10")])
         (fetches new)
    /\ (config env "PINECONE_API_KEY" = None ->
        fetches new = []
        /\ exists e,
             fst (ask env originalQuestion st) =
             Returned [("question", originalQuestion);
                       ("answer", SYSTEM_ERROR);
                       ("error", message e)]).
Proof.
  destruct (ask_fetches env originalQuestion st) as (new & Hnew & Hf).
  exists new. split; [exact Hnew|]. rewrite Hf. split.
  - destruct (prepare env originalQuestion st) as [[eq|e] st0]; [|constructor].
    destruct (getOrThrow env "PINECONE_API_KEY") as [key|e] eqn:Hkey;
      [|constructor].
    constructor; [|constructor]. split; [reflexivity|].
    exists key. split; [now apply getOrThrow_returned | reflexivity].
  - intros Hnone. destruct (getOrThrow_missing _ _ Hnone) as (e & He).
    rewrite He. split.
    + now destruct (prepare env originalQuestion st) as [[eq|e'] st0].
    + rewrite ask_run, ask_try_run.
      destruct (prepare env originalQuestion st) as [[eq|e'] st0].
      * rewrite search_run, He. eexists; reflexivity.
      * eexists; reflexivity.
Qed.

(** X11 at a sample: the key is gone from the configuration when the
    question arrives. *)
Lemma search_request_authenticated_witness :
  exists e,
    fst (ask {| config := fun _ => None;
                describeIndex := describeIndex Sample.down;
                invoke := fun _ _ => Returned Sample.english;
                fetch := fetch Sample.down |}
           Sample.question Sample.resolved) =
    Returned [("question", Sample.question);
              ("answer", SYSTEM_ERROR);
              ("error", message e)].
Proof.
  destruct (search_request_authenticated
              {| config := fun _ => None;
                 describeIndex := describeIndex Sample.down;
                 invoke := fun _ _ => Returned Sample.english;
                 fetch := fetch Sample.down |}
              Sample.question Sample.resolved) as (new & _ & _ & Hnone).
  exact (proj2 (Hnone eq_refl)).
Defined.

(* ===================================================================== *)
(** * The service object over the life of the process *)
(* ===================================================================== *)

(** One request changes nothing of the service object but the host. *)
Lemma ask_keeps_settings (env : Env) (originalQuestion : string) (st : State) :
  llm (this (snd (ask env originalQuestion st))) = llm (this st)
  /\ pinecone (this (snd (ask env originalQuestion st))) = pinecone (this st)
  /\ indexName (this (snd (ask env originalQuestion st))) = indexName (this st).
Proof. run. repeat step; repeat split; reflexivity. Qed.

(** One request, the host being set: no lookup, the same object. *)
Lemma ask_host_set (env : Env) (originalQuestion : string) (st : State) :
  Str.is_empty (indexHost (this st)) = false ->
  this (snd (ask env originalQuestion st)) = this st
  /\ exists new,
       history (snd (ask env originalQuestion st)) = (history st ++ new)%list
       /\ existsb is_describeIndex new = false.
Proof.
  intros Hset. run. rewrite Hset. split.
  - repeat step; reflexivity.
  - repeat step; tidy; eexists; (split; [reflexivity|]); reflexivity.
Qed.

Lemma ask_extends_history (env : Env) (originalQuestion : string) (st : State) :
  exists new,
    history (snd (ask env originalQuestion st)) = (history st ++ new)%list.
Proof. destruct (ask_fetches env originalQuestion st) as (new & H & _). eauto. Qed.

(** Over any number of requests, a host that is set is kept and not
    looked up. *)
Lemma serves_host_kept (env : Env) (st st' : State) :
  serves env st st' ->
  Str.is_empty (indexHost (this st)) = false ->
  this st' = this st
  /\ exists new,
       history st' = (history st ++ new)%list
       /\ existsb is_describeIndex new = false.
Proof.
  intros Hserves Hset.
  induction Hserves as [|st1 q Hserves (Hthis & new & Hnew & Hlook)].
  - split; [reflexivity|]. exists []. split; [now rewrite app_nil_r | reflexivity].
  - unfold RagController.ask.
    assert (Hset1 : Str.is_empty (indexHost (this st1)) = false)
      by now rewrite Hthis.
    destruct (ask_host_set env q st1 Hset1) as (Hthis1 & new1 & Hnew1 & Hno).
    split; [congruence|].
    exists (new ++ new1)%list. split.
    + now rewrite Hnew1, Hnew, app_assoc.
    + now rewrite existsb_app, Hlook, Hno.
Qed.

(** X12. Over any number of requests handled one after the other, the
    history only grows, and the model, the Pinecone client and the index
    name of the service never change. Once the index host is set it never
    changes either, and no request looks it up again. *)
Theorem process_keeps_service (env : Env) (st st' : State) :
  serves env st st' ->
  (exists new, history st' = (history st ++ new)%list
     /\ (Str.is_empty (indexHost (this st)) = false ->
         existsb is_describeIndex new = false))
  /\ llm (this st') = llm (this st)
  /\ pinecone (this st') = pinecone (this st)
  /\ indexName (this st') = indexName (this st)
  /\ (Str.is_empty (indexHost (this st)) = false -> this st' = this st).
Proof.
  induction 1 as [|st1 q Hserves ((new & Hnew & Hlook) & Hllm & Hpc & Hname & Hthis)].
  - repeat split; try reflexivity.
    exists []. split; [now rewrite app_nil_r | reflexivity].
  - unfold RagController.ask.
    destruct (ask_keeps_settings env q st1) as (Hllm1 & Hpc1 & Hname1).
    split; [|repeat split; try congruence].
    + destruct (ask_extends_history env q st1) as (new1 & Hnew1).
      exists (new ++ new1)%list. split.
      * now rewrite Hnew1, Hnew, app_assoc.
      * intros Hset.
        assert (Hset1 : Str.is_empty (indexHost (this st1)) = false)
          by now rewrite (Hthis Hset).
        destruct (ask_host_set env q st1 Hset1) as (_ & new2 & Hnew2 & Hno).
        rewrite Hnew1 in Hnew2. apply app_inv_head in Hnew2. subst new2.
        now rewrite existsb_app, (Hlook Hset), Hno.
    + intros Hset.
      assert (Hset1 : Str.is_empty (indexHost (this st1)) = false)
        by now rewrite (Hthis Hset).
      destruct (ask_host_set env q st1 Hset1) as (-> & _). now apply Hthis.
Qed.

(** X12 at a sample: two questions to a service whose host is set. *)
Lemma process_keeps_service_witness :
  this (snd (RagController.ask Sample.down "Do you ship to Norway?"
               (snd (RagController.ask Sample.down Sample.question
                       Sample.resolved))))
  = this Sample.resolved.
Proof.
  refine (proj2 (proj2 (proj2 (proj2
           (@process_keeps_service Sample.down Sample.resolved _ _)))) eq_refl).
  apply serves_request, serves_request, serves_start.
Defined.

(** X13. A start that finds the host serves every later request: when the
    lookup of [onModuleInit] answers with a host that is not empty, then
    after any number of requests the index host is that host and no
    request has looked it up. *)
Theorem startup_host_serves_requests (env : Env) (st st' : State) (d : IndexModel) :
  describeIndex env (history st) (pinecone (this st)) (indexName (this st))
  = Returned d ->
  Str.is_empty (host d) = false ->
  serves env (snd (onModuleInit env st)) st' ->
  indexHost (this st') = host d
  /\ exists new,
       history st' = (history (snd (onModuleInit env st)) ++ new)%list
       /\ existsb is_describeIndex new = false.
Proof.
  intros Hd Hhost Hserves.
  assert (Hinit : indexHost (this (snd (onModuleInit env st))) = host d).
  { run. now rewrite Hd. }
  assert (Hset : Str.is_empty (indexHost (this (snd (onModuleInit env st)))) = false)
    by now rewrite Hinit.
  destruct (serves_host_kept Hserves Hset) as (Hthis & new & Hnew & Hlook).
  split.
  - now rewrite Hthis.
  - exists new. split; [exact Hnew | exact Hlook].
Qed.

(** X13 at a sample: the start, then one question. *)
Lemma startup_host_serves_requests_witness :
  indexHost
    (this (snd (RagController.ask Sample.down Sample.question
                  (snd (onModuleInit Sample.down Sample.fresh)))))
  = "lurky-1a2b.svc.pinecone.io".
Proof.
  refine (proj1 (@startup_host_serves_requests Sample.down Sample.fresh _
                   {| host := "lurky-1a2b.svc.pinecone.io" |}
                   eq_refl eq_refl _)).
  apply serves_request, serves_start.
Defined.

(* ===================================================================== *)
(** * Hits that are there and falsy *)
(* ===================================================================== *)

(** X14. Hits that are present and falsy count as no hits: when the
    response is a success and [result.hits] of its body is [null], [false],
    [0] or the empty string, [ask] returns the fixed answer of the empty
    retrieval and makes no call after the search. *)
Theorem falsy_hits_fall_back (env : Env) (originalQuestion englishQuestion
    key : string) (st st0 : State) (response : Response)
    (searchResult result hits : json) :
  prepare env originalQuestion st = (Returned englishQuestion, st0) ->
  getOrThrow env "PINECONE_API_KEY" = Returned key ->
  fetch env (history st0) (search_url (indexHost (this st0)))
    (search_init key englishQuestion) = Returned response ->
  ok response = true ->
  json_body response = Returned searchResult ->
  searchResult <> JNull ->
  Js.member searchResult Js.K_result = Some result ->
  Js.opt_member (Some result) Js.K_hits = Some hits ->
  Js.truthy hits = false ->
  ask env originalQuestion st =
  (Returned [("question", originalQuestion);
             ("englishQuestion", englishQuestion);
             ("answer", NO_INFORMATION)],
   after (Fetch (search_url (indexHost (this st0)))
            (search_init key englishQuestion)) st0).
Proof.
  intros Hprep Hkey Hfetch Hok Hjson Hnull Hres Hhits Hfalsy.
  rewrite ask_run, ask_try_run, Hprep, search_run, Hkey. cbn zeta.
  rewrite Hfetch, Hok, Hjson. cbn [bindO]. unfold hits_of.
  rewrite (get_not_null _ Hnull), Hres. cbn [bindO]. rewrite Hhits.
  cbn [Js.or_else]. rewrite Hfalsy. now rewrite respond_no_hits.
Qed.

(** X14 at a sample: the index answers with [hits] set to [null]. *)
Lemma falsy_hits_fall_back_witness :
  fst (ask (Sample.world Sample.found (Returned Sample.english)
              (Sample.respond_with (JObj [("result", JObj [("hits", JNull)])])))
         Sample.question Sample.resolved)
  = Returned [("question", Sample.question);
              ("englishQuestion", Sample.english);
              ("answer", NO_INFORMATION)].
Proof.
  assert (Hnull : JObj [("result", JObj [("hits", JNull)])] <> JNull)
    by discriminate.
  rewrite (@falsy_hits_fall_back
    (Sample.world Sample.found (Returned Sample.english)
       (Sample.respond_with (JObj [("result", JObj [("hits", JNull)])])))
    Sample.question Sample.english "pinecone-key" Sample.resolved _ _
    (JObj [("result", JObj [("hits", JNull)])]) (JObj [("hits", JNull)]) JNull
    eq_refl eq_refl eq_refl eq_refl eq_refl Hnull eq_refl eq_refl eq_refl).
  reflexivity.
Defined.

(* ===================================================================== *)
(** * What the catch block does with what it caught *)
(* ===================================================================== *)

(** For a world that throws [Error] objects only, the methods of [Any] do
    what the methods of [RagService] do. *)
Lemma any_ask_of_env (env : Env) (originalQuestion : string) (st : State) :
  Any.ask (Any.of_env env) originalQuestion st =
  (match fst (ask env originalQuestion st) with
   | Returned r => Any.Fulfilled (Any.of_result r)
   | Thrown e => Any.Rejected (ThrownError e)
   end, snd (ask env originalQuestion st)).
Proof.
  run_any. run.
  change (Any.getOrThrow (Any.of_env env) "PINECONE_API_KEY")
    with (getOrThrow env "PINECONE_API_KEY").
  cbn [Any.of_env Any.world_describeIndex Any.world_invoke Any.world_fetch].
  cbn [this history fst snd llm pinecone indexName indexHost with_indexHost].
  repeat (step;
          cbn [Any.of_outcome Any.message_of this history fst snd llm pinecone
               indexName indexHost with_indexHost]);
    reflexivity.
Qed.

(** C1 on the code. The [catch] block of [ask] reads [error.message] of
    whatever the [try] block threw. For an [Error] object [e], [ask]
    returns the degraded result with [error] set to the message of [e].
    For [undefined] or [null] the reading throws a [TypeError], which is
    thrown by [ask] itself, after the log. For another value [ask] returns
    the degraded result with [error] set to the [message] property of the
    value, which is [undefined] for a string, a number or an object
    without one. In particular, with the host set, a translation chain
    that rejects with [undefined] or [null] makes [ask] throw. *)
Theorem ask_throws_what_catch_throws (W : Any.World) (originalQuestion : string)
    (st : State) :
  match Any.ask_try W originalQuestion st with
  | (Any.Fulfilled r, st1) =>
      Any.ask W originalQuestion st = (Any.Fulfilled r, st1)
  | (Any.Rejected (ThrownError e), st1) =>
      Any.ask W originalQuestion st =
      (Any.Fulfilled [("question", Any.str originalQuestion);
                      ("answer", Any.str "系统繁忙，请稍后再试 (System Error).");
                      ("error", Any.str (message e))],
       after (LoggerError "RAG Process Error:" e) st1)
  | (Any.Rejected (ThrownValue v), st1) =>
      match v with
      | None | Some JNull =>
          exists e,
            Any.ask W originalQuestion st =
            (Any.Rejected (ThrownError e),
             after (LoggerErrorValue "RAG Process Error:" v) st1)
      | Some (JObj ps) =>
          Any.ask W originalQuestion st =
          (Any.Fulfilled [("question", Any.str originalQuestion);
                          ("answer", Any.str "系统繁忙，请稍后再试 (System Error).");
                          ("error", Js.lookup "message" ps)],
           after (LoggerErrorValue "RAG Process Error:" v) st1)
      | Some _ =>
          Any.ask W originalQuestion st =
          (Any.Fulfilled [("question", Any.str originalQuestion);
                          ("answer", Any.str "系统繁忙，请稍后再试 (System Error).");
                          ("error", None)],
           after (LoggerErrorValue "RAG Process Error:" v) st1)
      end
  end
  /\ (forall v,
        Str.is_empty (indexHost (this st)) = false ->
        Any.world_invoke W (history st)
          (translation_call (this st) originalQuestion)
        = Any.Rejected (ThrownValue v) ->
        v = None \/ v = Some JNull ->
        exists e,
          Any.ask W originalQuestion st =
          (Any.Rejected (ThrownError e),
           after (LoggerErrorValue "RAG Process Error:" v)
             (after (ChainInvoke (translation_call (this st) originalQuestion))
                st))).
Proof.
  split.
  - unfold Any.ask, Any.try_catch.
    destruct (Any.ask_try W originalQuestion st) as [[r|[e|v]] st1];
      [reflexivity | reflexivity |].
    destruct v as [[| b | n | s | l | ps]|];
      try reflexivity; eexists; reflexivity.
  - intros v Hset Hinv Hv. run_any. rewrite Hset.
    unfold translation_call in Hinv. rewrite Hinv.
    destruct Hv as [-> | ->]; eexists; reflexivity.
Qed.

(** C1 at a sample: the generation service rejects with [undefined]. *)
Lemma ask_throws_what_catch_throws_witness :
  exists e,
    Any.ask rejecting_world Sample.question Sample.resolved =
    (Any.Rejected (ThrownError e),
     after (LoggerErrorValue "RAG Process Error:" None)
       (after (ChainInvoke (translation_call (this Sample.resolved)
                              Sample.question))
          Sample.resolved)).
Proof.
  exact (proj2 (ask_throws_what_catch_throws rejecting_world Sample.question
                  Sample.resolved)
           None eq_refl eq_refl (or_introl eq_refl)).
Defined.

(** The same sample, run: what [ask] throws. *)
Example sample_ask_throws :
  fst (Any.ask rejecting_world Sample.question Sample.resolved)
  = Any.Rejected
      (ThrownError
         (mkError "Cannot read properties of undefined (reading 'message')")).
Proof. reflexivity. Qed.
